(** * SSPR GIS App: priority zones and nearest-waterway lookup

    A shallow embedding of the two spatial computations of the application:

    - [computePriorityZones] with its helpers [distanceMeters] and
      [nearWaterway], next to the [PriorityZonesLayer] component,
    - the [nearestWaterwayMap] memo of the [MaintenanceLayer] component,
    - [haversineDistance] of components/Maintenance/WorkQueue.tsx.

    Conventions.  A JavaScript [number] that takes part in arithmetic is a
    real number: the arithmetic of the source is read exactly, without
    binary64 rounding, and its inputs are finite.  Where the source relies on
    the special values ([Infinity] as the initial minimum, [NaN] from a
    distance evaluation) the type [number] below carries them explicitly.
    Where exact arithmetic and the source part by more than rounding the
    definition says so, and a statement on the values concerned carries
    the matching hypothesis: points at most 90 degrees apart for the range
    of a distance, a grid edge other than 0 for the center of a cell, and
    severities that name no inherited object property for the severity
    criterion and the raw score.
    A JavaScript [Map] is an association list in insertion order.  The
    functions of the external package turf are parameters of the model. *)

From Stdlib Require Import Reals Lra Lia ZArith List String Ascii Bool.
From Stdlib Require Import Zfloor DecimalString.
From Stdlib Require Import Sorting.Permutation Sorting.Sorted.
Import ListNotations.

Open Scope R_scope.

(** ** JavaScript arithmetic helpers *)

Module Js.

(** [a < b] on numbers, as a boolean. *)
Definition ltb (a b : R) : bool := if Rlt_dec a b then true else false.

(** [Math.round]: the nearest integer, ties towards plus infinity. *)
Definition Math_round (x : R) : R := IZR (Zfloor (x + / 2)).

(** [Math.atan2 (y, x)] on finite arguments. *)
Definition Math_atan2 (y x : R) : R :=
  if Rlt_dec 0 x then atan (y / x)
  else if Rlt_dec x 0 then
         if Rle_dec 0 y then atan (y / x) + PI else atan (y / x) - PI
       else if Rlt_dec 0 y then PI / 2
            else if Rlt_dec y 0 then - (PI / 2) else 0.

(** [x || d] on a string that may be absent: the empty string and
    [undefined] are both falsy. *)
Definition orDefault (x : option string) (d : string) : string :=
  match x with
  | Some s => if String.eqb s "" then d else s
  | None => d
  end.

(** A string of [k] zeros. *)
Fixpoint zeros (k : nat) : string :=
  match k with
  | O => EmptyString
  | S k' => String "0"%char (zeros k')
  end.

(** The digits of [toFixed]: the decimal digits of [n], padded with zeros
    to [f + 1] characters, with the point before the last [f]. *)
Definition fixedDigits (f : nat) (n : Z) : string :=
  let m := NilZero.string_of_uint (N.to_uint (Z.to_N n)) in
  let k := String.length m in
  let m := if Nat.leb k f then (zeros (f + 1 - k) ++ m)%string else m in
  let k := String.length m in
  let a := substring 0 (k - f) m in
  let b := substring (k - f) f m in
  (a ++ "." ++ b)%string.

(** [x.toFixed(f)] for [f > 0], after ECMA-262 (Number.prototype.toFixed):
    the sign is split off and [n] is the integer nearest to [|x| * 10^f],
    the larger one on a tie.  The exponent form that the standard
    prescribes from [1e21] on is outside the range of coordinates in
    degrees and is not modelled. *)
Definition toFixed (f : nat) (x : R) : string :=
  let s := if Rlt_dec x 0 then "-"%string else EmptyString in
  let x := if Rlt_dec x 0 then - x else x in
  let n := Zfloor (x * 10 ^ f + / 2) in
  (s ++ fixedDigits f n)%string.

(** [Array.prototype.sort] with a comparator [cmp].  The sort is stable
    (ES2019) and, for a consistent comparator, its result is the stable
    sorted arrangement, computed here by insertion from the right. *)
Fixpoint insertBy {A : Type} (cmp : A -> A -> R) (x : A) (l : list A) : list A :=
  match l with
  | [] => [x]
  | y :: l' =>
      if Rle_dec (cmp x y) 0 then x :: y :: l' else y :: insertBy cmp x l'
  end.

Fixpoint sort {A : Type} (cmp : A -> A -> R) (l : list A) : list A :=
  match l with
  | [] => []
  | x :: l' => insertBy cmp x (sort cmp l')
  end.

(** A number that may be one of the special values. *)
Inductive number : Type :=
| Finite (r : R)
| PInfinity
| NInfinity
| NaN.

(** [a < b] on numbers with special values: false as soon as one is NaN. *)
Definition number_ltb (a b : number) : bool :=
  match a, b with
  | NaN, _ | _, NaN => false
  | NInfinity, NInfinity => false
  | NInfinity, _ => true
  | _, NInfinity => false
  | PInfinity, _ => false
  | Finite _, PInfinity => true
  | Finite x, Finite y => ltb x y
  end.

(** [Math.min] of two numbers. *)
Definition min2 (a b : number) : number :=
  match a, b with
  | NaN, _ | _, NaN => NaN
  | _, _ => if number_ltb b a then b else a
  end.

(** [Math.min(...l)]: [Infinity] without arguments, [NaN] if one is. *)
Definition Math_min (l : list number) : number := fold_right min2 PInfinity l.

(** [Math.round] on numbers with special values. *)
Definition Math_round_number (a : number) : number :=
  match a with
  | Finite r => Finite (Math_round r)
  | _ => a
  end.

End Js.

(** ** JavaScript [Map] with string keys, in insertion order *)

Module JsMap.

Definition t (V : Type) : Type := list (string * V).

Definition empty {V : Type} : t V := [].

Fixpoint get {V : Type} (k : string) (m : t V) : option V :=
  match m with
  | [] => None
  | (k', v) :: m' => if String.eqb k k' then Some v else get k m'
  end.

Definition has {V : Type} (k : string) (m : t V) : bool :=
  match get k m with Some _ => true | None => false end.

(** [set] keeps the position of a key that is present and appends a new
    one at the end. *)
Fixpoint set {V : Type} (k : string) (v : V) (m : t V) : t V :=
  match m with
  | [] => [(k, v)]
  | (k', v') :: m' =>
      if String.eqb k k' then (k', v) :: m' else (k', v') :: set k v m'
  end.

(** The values, in iteration order. *)
Definition values {V : Type} (m : t V) : list V := map snd m.

End JsMap.

(** ** Completions: a result or a thrown exception *)

Inductive Completion (A : Type) : Type :=
| Normal (a : A)
| Throw.

Arguments Normal {A} a.
Arguments Throw {A}.

Definition bind {A B : Type} (c : Completion A) (k : A -> Completion B)
  : Completion B :=
  match c with
  | Normal a => k a
  | Throw => Throw
  end.

Notation "x <- c ;; k" := (bind c (fun x => k))
  (at level 61, c at next level, right associativity).

(** [try { c } catch { h }]. *)
Definition tryCatch {A : Type} (c : Completion A) (h : Completion A)
  : Completion A :=
  match c with
  | Normal a => Normal a
  | Throw => h
  end.

(** [l.map(f)] where [f] may throw: left to right, stopping at the first
    exception. *)
Fixpoint mapM {A B : Type} (f : A -> Completion B) (l : list A)
  : Completion (list B) :=
  match l with
  | [] => Normal []
  | x :: l' => y <- f x ;; ys <- mapM f l' ;; Normal (y :: ys)
  end.

(** A [for ... of] loop whose body may throw, threading the loop state. *)
Fixpoint forOf {A S : Type} (body : S -> A -> Completion S) (l : list A) (s : S)
  : Completion S :=
  match l with
  | [] => Normal s
  | x :: l' => s' <- body s x ;; forOf body l' s'
  end.

(** ** GeoJSON *)

(** A position [[lng, lat]]: [coord[0]] is [fst], [coord[1]] is [snd]. *)
Definition Position : Type := (R * R)%type.

Inductive Geometry : Type :=
| Point (coordinates : Position)
| LineString (coordinates : list Position)
| MultiLineString (coordinates : list (list Position))
| OtherGeometry (type : string).

(** The properties the two computations read; an absent one is [None]. *)
Record Properties : Type := {
  id : option string;
  name : option string;
  severity : option string;
  category : option string;
  status : option string;
}.

(** [Feature<G>]: [G] is [Geometry] where the declared type is relied on
    and [option Geometry] where the code checks for a missing geometry. *)
Record Feature (G : Type) : Type := {
  geometry : G;
  properties : Properties;
}.

Arguments geometry {G} f.
Arguments properties {G} f.

(** ** Distance primitives *)

(** [distanceMeters]: haversine distance in meters.
    [sqrt] is the real square root, so the argument [a] is read as lying
    in [0, 1], which it does for real latitudes and longitudes.  In
    binary64 [a] can exceed 1 for points that are nearly antipodal, and
    the source then returns NaN; statements on the range of the distance
    keep to points at most 90 degrees apart, where [a] is at most 3/4. *)
Definition distanceMeters (lat1 lng1 lat2 lng2 : R) : R :=
  let R := 6371000 in
  let dLat := ((lat2 - lat1) * PI) / 180 in
  let dLng := ((lng2 - lng1) * PI) / 180 in
  let a :=
    sin (dLat / 2) ^ 2 +
    cos ((lat1 * PI) / 180) * cos ((lat2 * PI) / 180) * sin (dLng / 2) ^ 2 in
  R * 2 * Js.Math_atan2 (sqrt a) (sqrt (1 - a)).

(** [haversineDistance] of WorkQueue.tsx: haversine distance in miles,
    read as [distanceMeters] is. *)
Definition haversineDistance (lat1 lon1 lat2 lon2 : R) : R :=
  let R := 3958.8 in
  let dLat := ((lat2 - lat1) * PI) / 180 in
  let dLon := ((lon2 - lon1) * PI) / 180 in
  let a :=
    sin (dLat / 2) ^ 2 +
    cos ((lat1 * PI) / 180) *
      cos ((lat2 * PI) / 180) *
      sin (dLon / 2) ^ 2 in
  R * 2 * Js.Math_atan2 (sqrt a) (sqrt (1 - a)).

(** The exact number of meters in a statute mile. *)
Definition metersPerMile : R := 1609.344.

(** ** Priority zones *)

Module PriorityWeights.
Record t : Type := {
  issueDensity : R;
  waterProximity : R;
  severityFactor : R;
  recurrence : R;
}.
End PriorityWeights.

Definition DEFAULT_PRIORITY_WEIGHTS : PriorityWeights.t := {|
  PriorityWeights.issueDensity := 0.35;
  PriorityWeights.waterProximity := 0.25;
  PriorityWeights.severityFactor := 0.25;
  PriorityWeights.recurrence := 0.15;
|}.

Module PriorityZone.
Record t : Type := {
  lat : R;
  lng : R;
  score : R;
  issueCount : nat;
  criticalCount : nat;
  nearWater : bool;
  categories : list string;
  label : string;
}.
End PriorityZone.

(** The issue points extracted at the start of [computePriorityZones]. *)
Module Issue.
Record t : Type := {
  lat : R;
  lng : R;
  severity : string;
  category : string;
  status : string;
}.
End Issue.

(** A value of [cellMap]. *)
Module Cell.
Record t : Type := {
  lat : R;
  lng : R;
  issues : list Issue.t;
}.
End Cell.

(** Is the vertex [coord] closer than [meters] to the point? *)
Definition vertexNear (lat lng meters : R) (coord : Position) : bool :=
  Js.ltb (distanceMeters lat lng (snd coord) (fst coord)) meters.

(** [nearWaterway]: the loops return [true] at the first vertex closer
    than [meters]. *)
Fixpoint nearWaterway (lat lng : R) (waterways : list (Feature Geometry))
  (meters : R) : bool :=
  match waterways with
  | [] => false
  | feat :: rest =>
      match geometry feat with
      | LineString coordinates =>
          if existsb (vertexNear lat lng meters) coordinates then true
          else nearWaterway lat lng rest meters
      | MultiLineString coordinates =>
          if existsb (fun line => existsb (vertexNear lat lng meters) line)
               coordinates
          then true
          else nearWaterway lat lng rest meters
      | _ => nearWaterway lat lng rest meters
      end
  end.

Definition SEVERITY_SCORES (k : string) : option R :=
  if String.eqb k "critical" then Some 1.0
  else if String.eqb k "high" then Some 0.75
  else if String.eqb k "medium" then Some 0.4
  else if String.eqb k "low" then Some 0.15
  else None.

(** The names of the properties that every object inherits.  The table
    [SEVERITY_SCORES] is an object literal, so the lookup of such a name
    finds a function or an object, not a number. *)
Definition inheritedName (s : string) : bool :=
  existsb (String.eqb s)
    ["constructor"; "hasOwnProperty"; "isPrototypeOf";
     "propertyIsEnumerable"; "toLocaleString"; "toString"; "valueOf";
     "__proto__"; "__defineGetter__"; "__defineSetter__";
     "__lookupGetter__"; "__lookupSetter__"]%string.

(** The severities of the issues name no inherited property. *)
Definition plainSeverities (issues : list Issue.t) : Prop :=
  Forall (fun i => inheritedName (Issue.severity i) = false) issues.

(** [SEVERITY_SCORES[s] || 0.4], for a severity that names no inherited
    property: one of the four keys, or a string without an entry.  For an
    inherited name the lookup is truthy without being a number, and the
    sum of the severities of the cell, its average and its raw score are
    NaN in the source; statements on these values assume
    [plainSeverities]. *)
Definition severityScore (s : string) : R :=
  match SEVERITY_SCORES s with
  | Some v => if Req_dec_T v 0 then 0.4 else v
  | None => 0.4
  end.

(** The elements of [new Set(l)], in insertion order. *)
Fixpoint setOf (l : list string) : list string :=
  match l with
  | [] => []
  | x :: l' => x :: filter (fun y => negb (String.eqb x y)) (setOf l')
  end.

(** The issue points: features whose geometry is a [Point], with the
    defaults for missing properties. *)
Fixpoint extractIssues (features : list (Feature (option Geometry)))
  : list Issue.t :=
  match features with
  | [] => []
  | f :: rest =>
      match geometry f with
      | Some (Point coordinates) =>
          {| Issue.lat := snd coordinates;
             Issue.lng := fst coordinates;
             Issue.severity := Js.orDefault (severity (properties f)) "medium";
             Issue.category := Js.orDefault (category (properties f)) "unknown";
             Issue.status := Js.orDefault (status (properties f)) "reported" |}
          :: extractIssues rest
      | _ => extractIssues rest
      end
  end.

(** The center of the cell of a coordinate,
    [Math.round(x / gridDeg) * gridDeg], for a grid edge other than 0; at
    0 the source divides by zero and the center is NaN. *)
Definition cellCoord (gridDeg x : R) : R := Js.Math_round (x / gridDeg) * gridDeg.

(** The key of a cell in [cellMap]. *)
Definition cellKey (cellLat cellLng : R) : string :=
  (Js.toFixed 5 cellLat ++ "," ++ Js.toFixed 5 cellLng)%string.

(** The key the grid loop gives an issue. *)
Definition issueKey (gridDeg : R) (issue : Issue.t) : string :=
  cellKey (cellCoord gridDeg (Issue.lat issue)) (cellCoord gridDeg (Issue.lng issue)).

(** [cell.issues.push(issue)]. *)
Definition pushIssue (cell : Cell.t) (issue : Issue.t) : Cell.t :=
  {| Cell.lat := Cell.lat cell;
     Cell.lng := Cell.lng cell;
     Cell.issues := Cell.issues cell ++ [issue] |}.

(** One turn of the grid loop. *)
Definition addIssue (gridDeg : R) (cellMap : JsMap.t Cell.t) (issue : Issue.t)
  : JsMap.t Cell.t :=
  let cellLat := cellCoord gridDeg (Issue.lat issue) in
  let cellLng := cellCoord gridDeg (Issue.lng issue) in
  let key := cellKey cellLat cellLng in
  let cellMap :=
    if negb (JsMap.has key cellMap)
    then JsMap.set key
           {| Cell.lat := cellLat; Cell.lng := cellLng; Cell.issues := [] |}
           cellMap
    else cellMap in
  match JsMap.get key cellMap with
  | Some cell => JsMap.set key (pushIssue cell issue) cellMap
  | None => cellMap
  end.

Definition buildCells (gridDeg : R) (issues : list Issue.t) : JsMap.t Cell.t :=
  fold_left (addIssue gridDeg) issues JsMap.empty.

(** The four criteria of a cell and their weighted sum. *)
Definition densityScore (cell : Cell.t) : R :=
  Rmin (INR (List.length (Cell.issues cell)) / 8) 1.

Definition isNearWater (waterwayData : list (Feature Geometry)) (cell : Cell.t)
  : bool :=
  nearWaterway (Cell.lat cell) (Cell.lng cell) waterwayData 150.

Definition waterScore (waterwayData : list (Feature Geometry)) (cell : Cell.t)
  : R :=
  if isNearWater waterwayData cell then 1.0 else 0.0.

Definition avgSeverity (cell : Cell.t) : R :=
  fold_left (fun sum i => sum + severityScore (Issue.severity i))
    (Cell.issues cell) 0
  / INR (List.length (Cell.issues cell)).

Definition uniqueCategories (cell : Cell.t) : list string :=
  setOf (map Issue.category (Cell.issues cell)).

Definition recurrenceScore (cell : Cell.t) : R :=
  Rmin (INR (List.length (uniqueCategories cell)) / 4) 1.

Definition rawScore (waterwayData : list (Feature Geometry))
  (weights : PriorityWeights.t) (cell : Cell.t) : R :=
  densityScore cell * PriorityWeights.issueDensity weights +
  waterScore waterwayData cell * PriorityWeights.waterProximity weights +
  avgSeverity cell * PriorityWeights.severityFactor weights +
  recurrenceScore cell * PriorityWeights.recurrence weights.

Definition isCriticalOrHigh (i : Issue.t) : bool :=
  String.eqb (Issue.severity i) "critical" || String.eqb (Issue.severity i) "high".

(** One turn of the scoring loop over [zones] and [maxRawScore]. *)
Definition scoreCell (waterwayData : list (Feature Geometry))
  (weights : PriorityWeights.t) (st : list PriorityZone.t * R) (cell : Cell.t)
  : list PriorityZone.t * R :=
  let '(zones, maxRawScore) := st in
  if Nat.eqb (List.length (Cell.issues cell)) 0 then st
  else
    let raw := rawScore waterwayData weights cell in
    let maxRawScore := Rmax maxRawScore raw in
    let criticalCount := List.length (filter isCriticalOrHigh (Cell.issues cell)) in
    (zones ++
       [{| PriorityZone.lat := Cell.lat cell;
           PriorityZone.lng := Cell.lng cell;
           PriorityZone.score := raw;
           PriorityZone.issueCount := List.length (Cell.issues cell);
           PriorityZone.criticalCount := criticalCount;
           PriorityZone.nearWater := isNearWater waterwayData cell;
           PriorityZone.categories := uniqueCategories cell;
           PriorityZone.label := "" |}],
     maxRawScore).

Definition scoreCells (waterwayData : list (Feature Geometry))
  (weights : PriorityWeights.t) (cells : list Cell.t)
  : list PriorityZone.t * R :=
  fold_left (scoreCell waterwayData weights) cells ([], 0).

(** [maxRawScore || 1]. *)
Definition orOne (maxRawScore : R) : R :=
  if Req_dec_T maxRawScore 0 then 1 else maxRawScore.

Definition labelOf (maxRawScore : R) (z : PriorityZone.t) : string :=
  if Js.ltb 0.7 (PriorityZone.score z / orOne maxRawScore)
  then "Critical Priority"
  else if Js.ltb 0.4 (PriorityZone.score z / orOne maxRawScore)
       then "High Priority"
       else if Js.ltb 0.2 (PriorityZone.score z / orOne maxRawScore)
            then "Moderate Priority"
            else "Low Priority".

(** The object built by the [map] callback of the last statement. *)
Definition normalize (maxRawScore : R) (z : PriorityZone.t) : PriorityZone.t :=
  {| PriorityZone.lat := PriorityZone.lat z;
     PriorityZone.lng := PriorityZone.lng z;
     PriorityZone.score :=
       if Js.ltb 0 maxRawScore then PriorityZone.score z / maxRawScore else 0;
     PriorityZone.issueCount := PriorityZone.issueCount z;
     PriorityZone.criticalCount := PriorityZone.criticalCount z;
     PriorityZone.nearWater := PriorityZone.nearWater z;
     PriorityZone.categories := PriorityZone.categories z;
     PriorityZone.label := labelOf maxRawScore z |}.

Definition visible (z : PriorityZone.t) : bool :=
  Js.ltb 0.1 (PriorityZone.score z).

Definition byScoreDesc (a b : PriorityZone.t) : R :=
  PriorityZone.score b - PriorityZone.score a.

(** Normalize, hide and sort. *)
Definition finishZones (zones : list PriorityZone.t) (maxRawScore : R)
  : list PriorityZone.t :=
  Js.sort byScoreDesc (filter visible (map (normalize maxRawScore) zones)).

(** [computePriorityZones]; [gridSizeMeters] is [None] when the caller
    leaves it out, and then defaults to 200. *)
Definition computePriorityZones
  (issueData : list (Feature (option Geometry)))
  (waterwayData : list (Feature Geometry))
  (_trailData : list (Feature (option Geometry)))
  (weights : PriorityWeights.t)
  (gridSizeMeters : option R) : list PriorityZone.t :=
  let gridSizeMeters :=
    match gridSizeMeters with Some g => g | None => 200 end in
  let issues := extractIssues issueData in
  if Nat.eqb (List.length issues) 0 then []
  else
    let gridDeg := gridSizeMeters / 111320 in
    let cellMap := buildCells gridDeg issues in
    let '(zones, maxRawScore) :=
      scoreCells waterwayData weights (JsMap.values cellMap) in
    finishZones zones maxRawScore.

(** ** Nearest waterway of each issue *)

(** A value of [nearestWaterwayMap]. *)
Module Nearest.
Record t : Type := {
  name : string;
  distFt : Js.number;
}.
End Nearest.

Section Locator.

(** The functions of turf that the loop calls.  [turf.point(coordinates)]
    stands before the [try]: it returns the point or throws, as it does
    for coordinates that are not two numbers, and nothing catches that.
    [turf.lineString(line)] and
    [turf.pointToLineDistance(pt, line, { units: "feet" })] stand inside
    the [try].  Each returns or throws; what they do on a given argument
    is left open. *)
Variable turf_point : Position -> Completion Position.
Variable turf_lineString : list Position -> Completion (list Position).
Variable turf_pointToLineDistance :
  Position -> list Position -> Completion Js.number.

(** The callback of [coords.map]. *)
Definition lineDistance (pt : Position) (line : list Position)
  : Completion Js.number :=
  ls <- turf_lineString line ;; turf_pointToLineDistance pt ls.

(** The value of [dist] for one waterway feature; [None] on the two
    [continue] paths. *)
Definition featureDistance (pt : Position) (wwFeat : Feature (option Geometry))
  : Completion (option Js.number) :=
  match geometry wwFeat with
  | None => Normal None
  | Some (LineString coordinates) =>
      dist <- turf_pointToLineDistance pt coordinates ;; Normal (Some dist)
  | Some (MultiLineString coords) =>
      ds <- mapM (lineDistance pt) coords ;; Normal (Some (Js.Math_min ds))
  | Some _ => Normal None
  end.

(** [wwFeat.properties?.name || "Unnamed waterway"]. *)
Definition displayName (wwFeat : Feature (option Geometry)) : string :=
  Js.orDefault (name (properties wwFeat)) "Unnamed waterway".

(** The body of the inner loop on the state [(minDist, closestName)]. *)
Definition scanFeature (pt : Position) (st : Js.number * string)
  (wwFeat : Feature (option Geometry)) : Completion (Js.number * string) :=
  tryCatch
    (d <- featureDistance pt wwFeat ;;
     match d with
     | None => Normal st
     | Some dist =>
         if Js.number_ltb dist (fst st)
         then Normal (dist, displayName wwFeat)
         else Normal st
     end)
    (Normal st).

Definition scanFeatures (pt : Position)
  (features : list (Feature (option Geometry)))
  : Completion (Js.number * string) :=
  forOf (scanFeature pt) features (Js.PInfinity, EmptyString).

(** The body of the outer loop on the map under construction. *)
Definition locateIssue (features : list (Feature (option Geometry)))
  (map : JsMap.t Nearest.t) (issueFeat : Feature (option Geometry))
  : Completion (JsMap.t Nearest.t) :=
  match geometry issueFeat with
  | Some (Point coordinates) =>
      match id (properties issueFeat) with
      | Some issueId =>
          if String.eqb issueId "" then Normal map
          else
            pt <- turf_point coordinates ;;
            st <- scanFeatures pt features ;;
            let '(minDist, closestName) := st in
            if Js.number_ltb minDist Js.PInfinity
            then Normal
                   (JsMap.set issueId
                      {| Nearest.name := closestName;
                         Nearest.distFt := Js.Math_round_number minDist |}
                      map)
            else Normal map
      | None => Normal map
      end
  | _ => Normal map
  end.

(** [nearestWaterwayMap]; [waterwayData] is [None] when the property is
    left out. *)
Definition nearestWaterwayMap (data : list (Feature (option Geometry)))
  (waterwayData : option (list (Feature (option Geometry))))
  : Completion (JsMap.t Nearest.t) :=
  match waterwayData with
  | None => Normal JsMap.empty
  | Some features =>
      if Nat.eqb (List.length features) 0 then Normal JsMap.empty
      else forOf (locateIssue features) data JsMap.empty
  end.

End Locator.

(** ** Notions of the specification *)

(** The consecutive pairs of a line: its segments. *)
Fixpoint segments (line : list Position) : list (Position * Position) :=
  match line with
  | a :: ((b :: _) as rest) => (a, b) :: segments rest
  | _ => []
  end.

(** The lines of a waterway geometry. *)
Definition linesOf (g : Geometry) : list (list Position) :=
  match g with
  | LineString coordinates => [coordinates]
  | MultiLineString coordinates => coordinates
  | _ => []
  end.

(** After the specification (4.1): a location on the finite segment from
    [a] to [b], not just one of its endpoints. *)
Definition onSegment (p a b : Position) : Prop :=
  exists t : R, 0 <= t <= 1 /\
    fst p = fst a + t * (fst b - fst a) /\
    snd p = snd a + t * (snd b - snd a).

(** After the specification (4.3, 4.1): the point is within [meters] of
    some location on some segment of some waterway. *)
Definition specNearWaterway (lat lng : R) (waterways : list (Feature Geometry))
  (meters : R) : Prop :=
  exists feat line a b p,
    In feat waterways /\ In line (linesOf (geometry feat)) /\
    In (a, b) (segments line) /\ onSegment p a b /\
    distanceMeters lat lng (snd p) (fst p) < meters.

(** What the loops of [nearWaterway] look at: the vertices. *)
Definition verticesOf (g : Geometry) : list Position :=
  List.concat (linesOf g).

(** The identifier and the coordinates of an issue point: a feature of
    the issue collection with a point geometry and a truthy identifier. *)
Definition pointOf (issueFeat : Feature (option Geometry))
  : option (string * Position) :=
  match geometry issueFeat with
  | Some (Point coordinates) =>
      match id (properties issueFeat) with
      | Some issueId =>
          if String.eqb issueId "" then None else Some (issueId, coordinates)
      | None => None
      end
  | _ => None
  end.

Section Distances.

Variable turf_lineString : list Position -> Completion (list Position).
Variable turf_pointToLineDistance :
  Position -> list Position -> Completion Js.number.

(** [ds] are the distances of turf from the point to the lines [lines],
    line by line: each line is built and measured without a throw. *)
Definition lineDistances (pt : Position) (lines : list (list Position))
  (ds : list Js.number) : Prop :=
  Forall2
    (fun line dl =>
       exists ls, turf_lineString line = Normal ls /\
                  turf_pointToLineDistance pt ls = Normal dl)
    lines ds.

(** The finite number [d] is the least of [ds], none of which is NaN. *)
Definition leastOf (ds : list Js.number) (d : R) : Prop :=
  In (Js.Finite d) ds /\
  Forall (fun x => x <> Js.NaN /\ Js.number_ltb x (Js.Finite d) = false) ds.

(** After the specification: [d] is the finite distance from the point to
    the geometry of the waterway feature.  For a line it is the distance
    of turf to that line; for a multi-line it is the least of the distances
    of turf to its constituent lines. *)
Definition finiteDistance (pt : Position)
  (wwFeat : Feature (option Geometry)) (d : R) : Prop :=
  match geometry wwFeat with
  | Some (LineString coordinates) =>
      turf_pointToLineDistance pt coordinates = Normal (Js.Finite d)
  | Some (MultiLineString coords) =>
      exists ds, lineDistances pt coords ds /\ leastOf ds d
  | _ => False
  end.

(** No finite distance to the geometry of the feature is computable. *)
Definition noFiniteDistance (pt : Position)
  (wwFeat : Feature (option Geometry)) : Prop :=
  forall d, ~ finiteDistance pt wwFeat d.

(** The ways in which a feature is unusable for a point: it has no
    geometry or one that is not a line; the distance to its line throws,
    is NaN or is infinite; it is a multi-line without lines, or with a
    line whose construction throws, or the distance to which throws or is
    NaN. *)
Definition malformed (pt : Position) (wwFeat : Feature (option Geometry))
  : Prop :=
  match geometry wwFeat with
  | None => True
  | Some (LineString coordinates) =>
      turf_pointToLineDistance pt coordinates = Throw \/
      turf_pointToLineDistance pt coordinates = Normal Js.NaN \/
      turf_pointToLineDistance pt coordinates = Normal Js.PInfinity
  | Some (MultiLineString coords) =>
      coords = [] \/
      exists line, In line coords /\
        (turf_lineString line = Throw \/
         exists ls, turf_lineString line = Normal ls /\
           (turf_pointToLineDistance pt ls = Throw \/
            turf_pointToLineDistance pt ls = Normal Js.NaN))
  | Some _ => True
  end.

End Distances.

(** ** The loops of the locator, read without their exceptions *)

Section LocatorPure.

Variable turf_point : Position -> Completion Position.
Variable turf_lineString : list Position -> Completion (list Position).
Variable turf_pointToLineDistance :
  Position -> list Position -> Completion Js.number.

(** The inner loop computes the finite distance [d] for the feature. *)
Definition computable (pt : Position) (wwFeat : Feature (option Geometry))
  (d : R) : Prop :=
  featureDistance turf_lineString turf_pointToLineDistance pt wwFeat =
  Normal (Some (Js.Finite d)).

(** The inner loop computes no finite distance for the feature. *)
Definition uncomputable (pt : Position) (wwFeat : Feature (option Geometry))
  : Prop :=
  forall d, ~ computable pt wwFeat d.

(** One turn of the inner loop, seen from after its [catch]. *)
Definition scanStep (pt : Position) (st : Js.number * string)
  (wwFeat : Feature (option Geometry)) : Js.number * string :=
  match featureDistance turf_lineString turf_pointToLineDistance pt wwFeat with
  | Normal (Some dist) =>
      if Js.number_ltb dist (fst st) then (dist, displayName wwFeat) else st
  | _ => st
  end.

Definition scan (pt : Position) (features : list (Feature (option Geometry)))
  : Js.number * string :=
  fold_left (scanStep pt) features (Js.PInfinity, EmptyString).

(** The entry of an issue at [pt], if it gets one. *)
Definition located (pt : Position)
  (features : list (Feature (option Geometry))) : option Nearest.t :=
  if Js.number_ltb (fst (scan pt features)) Js.PInfinity
  then Some {| Nearest.name := snd (scan pt features);
               Nearest.distFt := Js.Math_round_number (fst (scan pt features)) |}
  else None.

(** Does the outer loop throw at the feature?  Only [turf.point] can. *)
Definition aborts (issueFeat : Feature (option Geometry)) : bool :=
  match pointOf issueFeat with
  | Some (_, coordinates) =>
      match turf_point coordinates with
      | Throw => true
      | Normal _ => false
      end
  | None => false
  end.

(** One turn of the outer loop that does not throw. *)
Definition locateStep (features : list (Feature (option Geometry)))
  (map : JsMap.t Nearest.t) (issueFeat : Feature (option Geometry))
  : JsMap.t Nearest.t :=
  match pointOf issueFeat with
  | Some (issueId, coordinates) =>
      match turf_point coordinates with
      | Normal pt =>
          match located pt features with
          | Some r => JsMap.set issueId r map
          | None => map
          end
      | Throw => map
      end
  | None => map
  end.

End LocatorPure.

(** The features of an optional collection. *)
Definition featuresOf (waterwayData : option (list (Feature (option Geometry))))
  : list (Feature (option Geometry)) :=
  match waterwayData with Some features => features | None => [] end.

(** ** Invariants used in the proofs *)

(** [m] is the running maximum of the scoring loop: zero or the largest
    raw score of [zones], whichever is larger. *)
Definition runningMax (zones : list PriorityZone.t) (m : R) : Prop :=
  0 <= m /\
  Forall (fun z => PriorityZone.score z <= m) zones /\
  (m = 0 \/ exists z, In z zones /\ PriorityZone.score z = m).

(** Descending by score. *)
Definition descending (l : list PriorityZone.t) : Prop :=
  StronglySorted
    (fun a b => PriorityZone.score b <= PriorityZone.score a) l.

(** The weights, each multiplied by [c]. *)
Definition scaleWeights (c : R) (w : PriorityWeights.t) : PriorityWeights.t :=
  {| PriorityWeights.issueDensity := c * PriorityWeights.issueDensity w;
     PriorityWeights.waterProximity := c * PriorityWeights.waterProximity w;
     PriorityWeights.severityFactor := c * PriorityWeights.severityFactor w;
     PriorityWeights.recurrence := c * PriorityWeights.recurrence w |}.

(** The degree edge [gridDeg] that [computePriorityZones] derives from its
    last argument. *)
Definition gridDegOf (gridSizeMeters : option R) : R :=
  match gridSizeMeters with Some g => g | None => 200 end / 111320.

(** The cell that the grid loop opens for a first issue at [c] and fills
    with [issues]. *)
Definition cellAt (gridDeg : R) (c : Position) (issues : list Issue.t)
  : Cell.t :=
  {| Cell.lat := cellCoord gridDeg (snd c);
     Cell.lng := cellCoord gridDeg (fst c);
     Cell.issues := issues |}.

(** Some vertex of some waterway is within [meters] of the point. *)
Definition vertexWithin (lat lng : R) (waterways : list (Feature Geometry))
  (meters : R) : Prop :=
  exists feat v,
    In feat waterways /\ In v (verticesOf (geometry feat)) /\
    distanceMeters lat lng (snd v) (fst v) < meters.

(** ** Example data *)

Module Example.

Definition props (id severity category : option string) : Properties :=
  {| id := id; name := None; severity := severity; category := category;
     status := None |}.

(** An issue report at a position. *)
Definition issueAt (lng lat : R) (severity category : option string)
  : Feature (option Geometry) :=
  {| geometry := Some (Point (lng, lat));
     properties := props (Some "issue-1"%string) severity category |}.

(** A waterway along the equator between two longitudes. *)
Definition equatorLine (lng1 lng2 : R) : Feature Geometry :=
  {| geometry := LineString [(lng1, 0); (lng2, 0)];
     properties := props None None None |}.

(** A waterway that runs through the origin: its two vertices are about
    1.1 km to the west and to the east. *)
Definition crossingLine : Feature Geometry := equatorLine (-0.01) 0.01.




(** One report without severity or category. *)
Definition oneIssue : list (Feature (option Geometry)) :=
  [issueAt 0 0 None None].

(** Weights of mixed sign that sum to zero. *)
Definition mixedWeights : PriorityWeights.t :=
  {| PriorityWeights.issueDensity := 1;
     PriorityWeights.waterProximity := -1;
     PriorityWeights.severityFactor := 0;
     PriorityWeights.recurrence := 0 |}.

(** Two reports on the equator, a fifth of a grid edge apart, on the two
    sides of the line between the cells at 0 and at one edge. *)
Definition westIssue : Issue.t :=
  {| Issue.lat := 0; Issue.lng := 0.4 * gridDegOf None;
     Issue.severity := "medium"; Issue.category := "unknown";
     Issue.status := "reported" |}.

Definition eastIssue : Issue.t :=
  {| Issue.lat := 0; Issue.lng := 0.6 * gridDegOf None;
     Issue.severity := "medium"; Issue.category := "unknown";
     Issue.status := "reported" |}.

(** A third one, in the cell of [westIssue]. *)
Definition midIssue : Issue.t :=
  {| Issue.lat := 0; Issue.lng := 0.3 * gridDegOf None;
     Issue.severity := "medium"; Issue.category := "unknown";
     Issue.status := "reported" |}.

(** Stand-ins for turf on waterways that run east-west.  Two numbers make
    a point; a line needs two positions; the distance to a line is the
    difference in latitude to its first vertex, at 364000 feet to the
    degree. *)
Definition point (coordinates : Position) : Completion Position :=
  Normal coordinates.

Definition lineString (line : list Position) : Completion (list Position) :=
  match line with
  | _ :: _ :: _ => Normal line
  | _ => Throw
  end.

Definition pointToLineDistance (pt : Position) (line : list Position)
  : Completion Js.number :=
  match line with
  | v :: _ :: _ => Normal (Js.Finite (Rabs (snd pt - snd v) * 364000))
  | _ => Throw
  end.

(** A named waterway along the parallel at [lat]. *)
Definition parallel (nm : string) (lat : R) : Feature (option Geometry) :=
  {| geometry := Some (LineString [(-1, lat); (1, lat)]);
     properties := {| id := None; name := Some nm; severity := None;
                      category := None; status := None |} |}.

(** Two parallel waterways, 728 and 364 feet north of the origin. *)
Definition twoParallels : list (Feature (option Geometry)) :=
  [parallel "Dutch Creek" 0.002; parallel "Bear Creek" 0.001].


(** A waterway whose line has a single position. *)
Definition brokenLine : Feature (option Geometry) :=
  {| geometry := Some (LineString [(0, 0)]);
     properties := {| id := None; name := Some "Broken"%string;
                      severity := None; category := None; status := None |} |}.

Definition zeroWeights : PriorityWeights.t :=
  {| PriorityWeights.issueDensity := 0;
     PriorityWeights.waterProximity := 0;
     PriorityWeights.severityFactor := 0;
     PriorityWeights.recurrence := 0 |}.

End Example.

(** ** Rendering of a zone *)

(** [scoreColor]. *)
Definition scoreColor (score : R) : string :=
  if Js.ltb 0.7 score then "#ef4444"
  else if Js.ltb 0.4 score then "#f97316"
  else if Js.ltb 0.2 score then "#eab308"
  else "#22c55e".

(** The [radius] of the circle of a zone in [PriorityZonesLayer]. *)
Definition circleRadius (zone : PriorityZone.t) : R :=
  Rmax 80 (PriorityZone.score zone * 250).

(** The [fillOpacity] of the circle of a zone. *)
Definition circleFillOpacity (zone : PriorityZone.t) : R :=
  0.15 + PriorityZone.score zone * 0.2.

(** The object that the scoring loop pushes for a cell. *)
Definition rawZone (waterwayData : list (Feature Geometry))
  (weights : PriorityWeights.t) (cell : Cell.t) : PriorityZone.t :=
  {| PriorityZone.lat := Cell.lat cell;
     PriorityZone.lng := Cell.lng cell;
     PriorityZone.score := rawScore waterwayData weights cell;
     PriorityZone.issueCount := List.length (Cell.issues cell);
     PriorityZone.criticalCount :=
       List.length (filter isCriticalOrHigh (Cell.issues cell));
     PriorityZone.nearWater := isNearWater waterwayData cell;
     PriorityZone.categories := uniqueCategories cell;
     PriorityZone.label := "" |}.

(** Does the scoring loop score the cell? *)
Definition occupied (cell : Cell.t) : bool :=
  negb (Nat.eqb (List.length (Cell.issues cell)) 0).

(** ** The work queue (WorkQueue.tsx) *)

Module IssueSeverity.
Inductive t : Type := low | medium | high | critical.

(** The string literal of the type. *)
Definition toString (s : t) : string :=
  match s with
  | low => "low"
  | medium => "medium"
  | high => "high"
  | critical => "critical"
  end.

Definition eqb (a b : t) : bool :=
  match a, b with
  | low, low | medium, medium | high, high | critical, critical => true
  | _, _ => false
  end.
End IssueSeverity.

Module IssueStatus.
Inductive t : Type := reported | assigned | in_progress | resolved.

Definition toString (s : t) : string :=
  match s with
  | reported => "reported"
  | assigned => "assigned"
  | in_progress => "in_progress"
  | resolved => "resolved"
  end.

Definition eqb (a b : t) : bool :=
  match a, b with
  | reported, reported | assigned, assigned
  | in_progress, in_progress | resolved, resolved => true
  | _, _ => false
  end.
End IssueStatus.

Module IssueCategory.
Inductive t : Type :=
| graffiti | snow_ice | parking_lot | erosion | trail_surface
| vegetation | signage | infrastructure | trash_dumping | safety.

Definition toString (c : t) : string :=
  match c with
  | graffiti => "graffiti"
  | snow_ice => "snow_ice"
  | parking_lot => "parking_lot"
  | erosion => "erosion"
  | trail_surface => "trail_surface"
  | vegetation => "vegetation"
  | signage => "signage"
  | infrastructure => "infrastructure"
  | trash_dumping => "trash_dumping"
  | safety => "safety"
  end.

Definition eqb (a b : t) : bool := String.eqb (toString a) (toString b).
End IssueCategory.

(** The fields of a [MaintenanceIssue] that the queue filters, sorts and
    exports by. *)
Module MaintenanceIssue.
Record t : Type := {
  id : string;
  latitude : R;
  longitude : R;
  category : IssueCategory.t;
  severity : IssueSeverity.t;
  status : IssueStatus.t;
  reportedAt : string;
}.
End MaintenanceIssue.

Module WorkQueue.

Inductive SortMode : Type := proximity | severity | date.

(** ["all"], ["open"] or one status. *)
Inductive FilterStatus : Type :=
| all
| open
| only (s : IssueStatus.t).

Definition SEVERITY_ORDER (s : IssueSeverity.t) : R :=
  match s with
  | IssueSeverity.critical => 0
  | IssueSeverity.high => 1
  | IssueSeverity.medium => 2
  | IssueSeverity.low => 3
  end.

(** An element of [issuesWithDistance]: the issue and its [distance],
    [None] for [null]. *)
Record WithDistance : Type := {
  issue : MaintenanceIssue.t;
  distance : option R;
}.

(** [issuesWithDistance]; [userLocation] is [(lat, lng)]. *)
Definition issuesWithDistance (issues : list MaintenanceIssue.t)
  (userLocation : option (R * R)) : list WithDistance :=
  map (fun i =>
         {| issue := i;
            distance :=
              match userLocation with
              | Some (lat, lng) =>
                  Some (haversineDistance lat lng
                          (MaintenanceIssue.latitude i)
                          (MaintenanceIssue.longitude i))
              | None => None
              end |})
      issues.

Definition unresolved (i : WithDistance) : bool :=
  negb (IssueStatus.eqb (MaintenanceIssue.status (issue i))
          IssueStatus.resolved).

(** Is [filterMonths] set and not empty? *)
Definition monthsActive (filterMonths : option (list nat)) : bool :=
  match filterMonths with
  | Some (_ :: _) => true
  | _ => false
  end.

Section Queue.

(** [new Date(s).getMonth()], [None] for an invalid date, and
    [new Date(s).getTime()], read for valid dates. *)
Variable Date_getMonth : string -> option nat.
Variable Date_getTime : string -> R.

(** The comparator of the final [sort]. *)
Definition compareIssues (sortMode : SortMode) (a b : WithDistance) : R :=
  match sortMode with
  | proximity =>
      match distance a, distance b with
      | Some da, Some db => da - db
      | _, _ => 0
      end
  | severity =>
      SEVERITY_ORDER (MaintenanceIssue.severity (issue a)) -
      SEVERITY_ORDER (MaintenanceIssue.severity (issue b))
  | date =>
      Date_getTime (MaintenanceIssue.reportedAt (issue b)) -
      Date_getTime (MaintenanceIssue.reportedAt (issue a))
  end.

(** The status step of the filter chain. *)
Definition filterByStatus (filterStatus : FilterStatus)
  (filterMonths : option (list nat)) (l : list WithDistance)
  : list WithDistance :=
  match filterStatus with
  | open => filter unresolved l
  | only s =>
      filter (fun i => IssueStatus.eqb (MaintenanceIssue.status (issue i)) s) l
  | all => if monthsActive filterMonths then l else filter unresolved l
  end.

Definition filterBySeverity (filterSeverity : option IssueSeverity.t)
  (l : list WithDistance) : list WithDistance :=
  match filterSeverity with
  | Some s =>
      filter (fun i =>
                IssueSeverity.eqb (MaintenanceIssue.severity (issue i)) s) l
  | None => l
  end.

Definition filterByCategory (filterCategory : option IssueCategory.t)
  (l : list WithDistance) : list WithDistance :=
  match filterCategory with
  | Some c =>
      filter (fun i =>
                IssueCategory.eqb (MaintenanceIssue.category (issue i)) c) l
  | None => l
  end.

Definition inMonths (months : list nat) (i : WithDistance) : bool :=
  match Date_getMonth (MaintenanceIssue.reportedAt (issue i)) with
  | Some month => existsb (Nat.eqb month) months
  | None => false
  end.

Definition filterByMonths (filterMonths : option (list nat))
  (l : list WithDistance) : list WithDistance :=
  match filterMonths with
  | Some (m :: ms) => filter (inMonths (m :: ms)) l
  | _ => l
  end.

(** [filteredAndSorted]; a filter set to ["all"] is [None]. *)
Definition filteredAndSorted (issues : list MaintenanceIssue.t)
  (userLocation : option (R * R)) (sortMode : SortMode)
  (filterStatus : FilterStatus) (filterSeverity : option IssueSeverity.t)
  (filterCategory : option IssueCategory.t)
  (filterMonths : option (list nat)) : list WithDistance :=
  let filtered := issuesWithDistance issues userLocation in
  let filtered := filterByStatus filterStatus filterMonths filtered in
  let filtered := filterBySeverity filterSeverity filtered in
  let filtered := filterByCategory filterCategory filtered in
  let filtered := filterByMonths filterMonths filtered in
  Js.sort (compareIssues sortMode) filtered.

End Queue.

End WorkQueue.

(** [exportGeoJSON]: the features of the exported collection, with the
    properties that [Properties] holds. *)
Definition exportGeoJSON (issues : list MaintenanceIssue.t)
  : list (Feature (option Geometry)) :=
  map (fun i =>
         {| geometry :=
              Some (Point (MaintenanceIssue.longitude i,
                           MaintenanceIssue.latitude i));
            properties :=
              {| id := Some (MaintenanceIssue.id i);
                 name := None;
                 severity :=
                   Some (IssueSeverity.toString (MaintenanceIssue.severity i));
                 category :=
                   Some (IssueCategory.toString (MaintenanceIssue.category i));
                 status :=
                   Some (IssueStatus.toString (MaintenanceIssue.status i)) |}
         |})
      issues.

(** Example data for the work queue. *)
Module QueueExample.

Definition washout : MaintenanceIssue.t :=
  {| MaintenanceIssue.id := "issue-1";
     MaintenanceIssue.latitude := 0;
     MaintenanceIssue.longitude := 0;
     MaintenanceIssue.category := IssueCategory.erosion;
     MaintenanceIssue.severity := IssueSeverity.critical;
     MaintenanceIssue.status := IssueStatus.reported;
     MaintenanceIssue.reportedAt := "2025-05-01T08:00:00Z" |}.

Definition oldTag : MaintenanceIssue.t :=
  {| MaintenanceIssue.id := "issue-2";
     MaintenanceIssue.latitude := 0;
     MaintenanceIssue.longitude := 1;
     MaintenanceIssue.category := IssueCategory.graffiti;
     MaintenanceIssue.severity := IssueSeverity.low;
     MaintenanceIssue.status := IssueStatus.resolved;
     MaintenanceIssue.reportedAt := "2025-01-15T08:00:00Z" |}.

(** Stand-ins for the two [Date] methods. *)
Definition getMonth (s : string) : option nat := None.
Definition getTime (s : string) : R := 0.

End QueueExample.

(** * Properties *)

(** ** Arithmetic helpers *)

Lemma ltb_true_iff (a b : R) : Js.ltb a b = true <-> a < b.
Proof.
  unfold Js.ltb. destruct (Rlt_dec a b); split; intros; try easy.
Qed.

Lemma ltb_false_iff (a b : R) : Js.ltb a b = false <-> b <= a.
Proof.
  unfold Js.ltb. destruct (Rlt_dec a b); split; intros; try easy; lra.
Qed.

Lemma Math_round_eq (x : R) (n : Z) :
  IZR n <= x + / 2 < IZR n + 1 -> Js.Math_round x = IZR n.
Proof.
  intros H. unfold Js.Math_round. now rewrite (Zfloor_eq n).
Qed.

Lemma Math_round_IZR (n : Z) : Js.Math_round (IZR n) = IZR n.
Proof. apply Math_round_eq. lra. Qed.

Lemma Math_round_near (x : R) (n : Z) :
  Rabs (x - IZR n) < / 2 -> Js.Math_round x = IZR n.
Proof.
  intros H. apply Math_round_eq.
  apply Rabs_def2 in H. lra.
Qed.

(** ** The haversine formula *)

Section Haversine.

Lemma PI_gt_2 : 2 < PI.
Proof. pose proof PI2_1. lra. Qed.

(** The last line of both distance functions recovers the half angle. *)
Lemma half_angle (x : R) :
  0 <= x <= PI / 2 ->
  Js.Math_atan2 (sqrt (sin x ^ 2)) (sqrt (1 - sin x ^ 2)) = x.
Proof.
  intros [H0 H1].
  pose proof PI_gt_2 as HPI.
  assert (Hs : 0 <= sin x) by (apply sin_ge_0; lra).
  assert (Hc : 0 <= cos x) by (apply cos_ge_0; lra).
  assert (Hcs : 1 - sin x ^ 2 = cos x ^ 2).
  { pose proof (sin2_cos2 x) as E. unfold Rsqr in E. lra. }
  rewrite Hcs, !sqrt_pow2 by assumption.
  unfold Js.Math_atan2.
  destruct (Rlt_dec 0 (cos x)) as [Hpos | Hnpos].
  - assert (Hlt : x < PI / 2).
    { destruct (Req_dec x (PI / 2)) as [E | E]; [| lra].
      rewrite E, cos_PI2 in Hpos. lra. }
    change (sin x / cos x) with (tan x).
    apply atan_tan. lra.
  - assert (Hc0 : cos x = 0) by lra.
    assert (Hx : x = PI / 2).
    { destruct (Req_dec x (PI / 2)) as [E | E]; [exact E |].
      assert (0 < cos x) by (apply cos_gt_0; lra). lra. }
    assert (Hs1 : sin x = 1) by (rewrite Hx; apply sin_PI2).
    rewrite Hc0, Hs1.
    destruct (Rlt_dec 0 0); [lra |].
    destruct (Rlt_dec 0 1); [| lra].
    now symmetry.
Qed.

(** Along the equator the meters are the radius times the angle. *)
Lemma distanceMeters_equator (lng1 lng2 : R) :
  0 <= lng2 - lng1 <= 180 ->
  distanceMeters 0 lng1 0 lng2 = 6371000 * ((lng2 - lng1) * PI / 180).
Proof.
  intros H. pose proof PI_RGT_0 as HPI. unfold distanceMeters.
  replace ((0 - 0) * PI / 180 / 2) with 0 by lra.
  replace (0 * PI / 180) with 0 by lra.
  rewrite sin_0, cos_0.
  replace (0 ^ 2 + 1 * 1 * sin ((lng2 - lng1) * PI / 180 / 2) ^ 2)
    with (sin ((lng2 - lng1) * PI / 180 / 2) ^ 2) by ring.
  rewrite half_angle.
  - lra.
  - split; [apply Rmult_le_pos; [| lra] | ].
    + apply Rmult_le_pos; [| lra]. apply Rmult_le_pos; lra.
    + assert ((lng2 - lng1) * PI <= 180 * PI) by (apply Rmult_le_compat_r; lra).
      lra.
Qed.

Lemma haversineDistance_equator (lon1 lon2 : R) :
  0 <= lon2 - lon1 <= 180 ->
  haversineDistance 0 lon1 0 lon2 = 3958.8 * ((lon2 - lon1) * PI / 180).
Proof.
  intros H. pose proof PI_RGT_0 as HPI. unfold haversineDistance.
  replace ((0 - 0) * PI / 180 / 2) with 0 by lra.
  replace (0 * PI / 180) with 0 by lra.
  rewrite sin_0, cos_0.
  replace (0 ^ 2 + 1 * 1 * sin ((lon2 - lon1) * PI / 180 / 2) ^ 2)
    with (sin ((lon2 - lon1) * PI / 180 / 2) ^ 2) by ring.
  rewrite half_angle.
  - lra.
  - split; [apply Rmult_le_pos; [| lra] | ].
    + apply Rmult_le_pos; [| lra]. apply Rmult_le_pos; lra.
    + assert ((lon2 - lon1) * PI <= 180 * PI) by (apply Rmult_le_compat_r; lra).
      lra.
Qed.

(** The order of the two longitudes does not matter on the equator. *)
Lemma distanceMeters_equator_sym (lng1 lng2 : R) :
  distanceMeters 0 lng1 0 lng2 = distanceMeters 0 lng2 0 lng1.
Proof.
  unfold distanceMeters.
  replace ((lng1 - lng2) * PI / 180 / 2)
    with (- ((lng2 - lng1) * PI / 180 / 2)) by lra.
  rewrite sin_neg.
  replace ((- sin ((lng2 - lng1) * PI / 180 / 2)) ^ 2)
    with (sin ((lng2 - lng1) * PI / 180 / 2) ^ 2) by ring.
  reflexivity.
Qed.

Lemma distanceMeters_self (lng : R) : distanceMeters 0 lng 0 lng = 0.
Proof. rewrite distanceMeters_equator; lra. Qed.







End Haversine.

(** C4, as the code has it.  Both functions evaluate one and the same
    haversine expression and differ only in the radius they multiply it
    with, 6371000 (meters) and 3958.8 (miles): for all points,
    [3958.8 * distanceMeters = 6371000 * haversineDistance]. *)
Theorem C4_same_formula_own_radius (lat1 lng1 lat2 lng2 : R) :
  3958.8 * distanceMeters lat1 lng1 lat2 lng2 =
  6371000 * haversineDistance lat1 lng1 lat2 lng2.
Proof.
  unfold distanceMeters, haversineDistance. cbv zeta. ring.
Qed.

(** C4 as stated fails: one degree along the equator is not
    [1609.344] times its length in miles, because [1609.344 * 3958.8]
    is not [6371000]. *)
Lemma C4_counterexample :
  distanceMeters 0 0 0 1 <> metersPerMile * haversineDistance 0 0 0 1.
Proof.
  rewrite distanceMeters_equator, haversineDistance_equator by lra.
  unfold metersPerMile. pose proof PI_RGT_0. lra.
Qed.

(** ** Sorting *)

Section SortFacts.

Lemma insertBy_perm (x : PriorityZone.t) (l : list PriorityZone.t) :
  Permutation (x :: l) (Js.insertBy byScoreDesc x l).
Proof.
  induction l as [| y l IH]; simpl.
  - reflexivity.
  - destruct (Rle_dec (byScoreDesc x y) 0).
    + reflexivity.
    + rewrite perm_swap. now apply perm_skip.
Qed.

Lemma sort_perm (l : list PriorityZone.t) :
  Permutation l (Js.sort byScoreDesc l).
Proof.
  induction l as [| x l IH]; simpl.
  - reflexivity.
  - rewrite <- insertBy_perm. now apply perm_skip.
Qed.

Lemma insertBy_descending (x : PriorityZone.t) (l : list PriorityZone.t) :
  descending l -> descending (Js.insertBy byScoreDesc x l).
Proof.
  unfold descending. induction l as [| y l IH]; simpl; intros Hs.
  - constructor; constructor.
  - inversion Hs as [| ? ? Hl Hy]; subst.
    destruct (Rle_dec (byScoreDesc x y) 0) as [Hle | Hgt];
      unfold byScoreDesc in *.
    + constructor; [assumption |].
      constructor; [lra |].
      eapply Forall_impl; [| exact Hy]. simpl. intros; lra.
    + constructor; [now apply IH |].
      eapply Permutation_Forall; [apply insertBy_perm |].
      constructor; [lra | assumption].
Qed.

Lemma sort_descending (l : list PriorityZone.t) :
  descending (Js.sort byScoreDesc l).
Proof.
  induction l as [| x l IH]; simpl.
  - constructor.
  - now apply insertBy_descending.
Qed.

(** The first element of the sorted list has the largest score. *)
Lemma sort_head_max (l : list PriorityZone.t) (z : PriorityZone.t)
  (rest : list PriorityZone.t) :
  Js.sort byScoreDesc l = z :: rest ->
  In z l /\ forall y, In y l -> PriorityZone.score y <= PriorityZone.score z.
Proof.
  intros E.
  pose proof (sort_perm l) as P. pose proof (sort_descending l) as D.
  rewrite E in P, D. split.
  - eapply Permutation_in; [symmetry; exact P | now left].
  - intros y Hy. apply (Permutation_in _ P) in Hy.
    destruct Hy as [-> | Hy]; [lra |].
    inversion D as [| ? ? _ Hall]; subst.
    rewrite Forall_forall in Hall. now apply Hall.
Qed.

End SortFacts.

(** ** The scoring loop and the normalizer *)

Section Scoring.

Variable waterwayData : list (Feature Geometry).
Variable weights : PriorityWeights.t.

Lemma runningMax_init : runningMax [] 0.
Proof.
  repeat split; [lra | constructor | now left].
Qed.

Lemma scoreCell_runningMax (zones : list PriorityZone.t) (m : R)
  (cell : Cell.t) :
  runningMax zones m ->
  runningMax (fst (scoreCell waterwayData weights (zones, m) cell))
             (snd (scoreCell waterwayData weights (zones, m) cell)).
Proof.
  intros (H0 & Hall & Hmax). unfold scoreCell.
  destruct (Nat.eqb (List.length (Cell.issues cell)) 0); simpl.
  - now repeat split.
  - set (raw := rawScore waterwayData weights cell).
    pose proof (Rmax_l m raw) as Hl. pose proof (Rmax_r m raw) as Hr.
    repeat split.
    + lra.
    + apply Forall_app. split.
      * eapply Forall_impl; [| exact Hall]. simpl. intros; lra.
      * constructor; [exact Hr | constructor].
    + destruct (Rle_dec m raw) as [Hle | Hgt].
      * right. eexists. split; [apply in_or_app; right; now left |].
        simpl. fold raw. now rewrite Rmax_right.
      * rewrite Rmax_left by lra.
        destruct Hmax as [-> | (z & Hz & Ez)]; [now left |].
        right. exists z. split; [apply in_or_app; now left | exact Ez].
Qed.

Lemma scoreCells_runningMax_from (cells : list Cell.t)
  (zones : list PriorityZone.t) (m : R) :
  runningMax zones m ->
  runningMax
    (fst (fold_left (scoreCell waterwayData weights) cells (zones, m)))
    (snd (fold_left (scoreCell waterwayData weights) cells (zones, m))).
Proof.
  revert zones m. induction cells as [| cell cells IH]; intros zones m H.
  - exact H.
  - cbn [fold_left].
    pose proof (scoreCell_runningMax zones m cell H) as H'.
    destruct (scoreCell waterwayData weights (zones, m) cell) as [zones' m'].
    apply IH. exact H'.
Qed.

Lemma scoreCells_runningMax (cells : list Cell.t) :
  runningMax (fst (scoreCells waterwayData weights cells))
             (snd (scoreCells waterwayData weights cells)).
Proof. apply scoreCells_runningMax_from, runningMax_init. Qed.

End Scoring.

(** Every result of [computePriorityZones] is the normalizer applied to
    zones and their running maximum. *)
Lemma computePriorityZones_shape
  (issueData : list (Feature (option Geometry)))
  (waterwayData : list (Feature Geometry))
  (trailData : list (Feature (option Geometry)))
  (weights : PriorityWeights.t) (gridSizeMeters : option R) :
  exists zones m,
    runningMax zones m /\
    computePriorityZones issueData waterwayData trailData weights
      gridSizeMeters = finishZones zones m.
Proof.
  unfold computePriorityZones.
  destruct (Nat.eqb (List.length (extractIssues issueData)) 0).
  - exists [], 0. split; [apply runningMax_init | reflexivity].
  - match goal with
    | |- context [scoreCells ?w ?ws ?cs] =>
        pose proof (scoreCells_runningMax w ws cs) as H;
        destruct (scoreCells w ws cs) as [zones m]
    end.
    now exists zones, m.
Qed.

Lemma finishZones_In (zones : list PriorityZone.t) (m : R)
  (z : PriorityZone.t) :
  In z (finishZones zones m) <->
  exists z0, In z0 zones /\ z = normalize m z0 /\ visible z = true.
Proof.
  unfold finishZones. split.
  - intros H.
    apply (Permutation_in _ (Permutation_sym (sort_perm _))) in H.
    apply filter_In in H. destruct H as [H Hv].
    apply in_map_iff in H. destruct H as (z0 & E & Hz0).
    now exists z0.
  - intros (z0 & Hz0 & E & Hv).
    apply (Permutation_in _ (sort_perm _)).
    apply filter_In. split; [| exact Hv].
    apply in_map_iff. now exists z0.
Qed.

(** A visible zone has a normalized score above 0.1 and at most 1. *)
Lemma finishZones_range (zones : list PriorityZone.t) (m : R)
  (z : PriorityZone.t) :
  runningMax zones m -> In z (finishZones zones m) ->
  0 < m /\ 0.1 < PriorityZone.score z <= 1.
Proof.
  intros (H0 & Hall & _) Hz.
  apply finishZones_In in Hz. destruct Hz as (z0 & Hz0 & -> & Hv).
  unfold visible in Hv. apply ltb_true_iff in Hv.
  simpl in *. unfold Js.ltb in *.
  destruct (Rlt_dec 0 m) as [Hpos | Hnpos]; [| lra].
  rewrite Forall_forall in Hall. specialize (Hall z0 Hz0).
  repeat split; try assumption.
  apply (Rmult_le_reg_r m); [assumption |].
  unfold Rdiv. rewrite Rmult_assoc, Rinv_l by lra. lra.
Qed.

(** C1.  Whenever [computePriorityZones] returns a non-empty list, its
    first zone, the top of the descending order, has normalized score
    exactly 1. *)
Theorem C1_top_zone_score_one
  (issueData : list (Feature (option Geometry)))
  (waterwayData : list (Feature Geometry))
  (trailData : list (Feature (option Geometry)))
  (weights : PriorityWeights.t) (gridSizeMeters : option R)
  (z : PriorityZone.t) (rest : list PriorityZone.t) :
  computePriorityZones issueData waterwayData trailData weights
    gridSizeMeters = z :: rest ->
  PriorityZone.score z = 1.
Proof.
  destruct (computePriorityZones_shape issueData waterwayData trailData
              weights gridSizeMeters) as (zones & m & Hinv & ->).
  intros E.
  assert (Hz : In z (finishZones zones m)) by (rewrite E; now left).
  destruct (finishZones_range zones m z Hinv Hz) as (Hm & _ & Hle).
  destruct Hinv as (_ & _ & [Hm0 | (zmax & Hzmax & Emax)]); [lra |].
  assert (Hn : In (normalize m zmax) (finishZones zones m)).
  { apply finishZones_In. exists zmax. repeat split; [assumption |].
    unfold visible. apply ltb_true_iff. simpl. unfold Js.ltb.
    destruct (Rlt_dec 0 m); [| lra].
    rewrite Emax. unfold Rdiv. rewrite Rinv_r by lra. lra. }
  unfold finishZones in E, Hn.
  apply sort_head_max in E. destruct E as [_ Hmax].
  apply (Permutation_in _ (Permutation_sym (sort_perm _))) in Hn.
  specialize (Hmax _ Hn). simpl in Hmax. unfold Js.ltb in Hmax.
  destruct (Rlt_dec 0 m); [| lra].
  rewrite Emax in Hmax. unfold Rdiv in Hmax. rewrite Rinv_r in Hmax by lra.
  lra.
Qed.

(** C10.  Whatever the weights, inside or outside [0, 1], every zone
    that [computePriorityZones] returns has a normalized score in
    [0, 1], and above 0.1.  The weights enter the raw score as they are:
    multiplying all of them by a factor multiplies the raw score of every
    cell by that factor, which a clamp would not allow. *)
Theorem C10_scores_in_unit_interval
  (issueData : list (Feature (option Geometry)))
  (waterwayData : list (Feature Geometry))
  (trailData : list (Feature (option Geometry)))
  (weights : PriorityWeights.t) (gridSizeMeters : option R) :
  Forall
    (fun z => 0 <= PriorityZone.score z <= 1 /\ 0.1 < PriorityZone.score z)
    (computePriorityZones issueData waterwayData trailData weights
       gridSizeMeters) /\
  forall c cell,
    rawScore waterwayData (scaleWeights c weights) cell =
    c * rawScore waterwayData weights cell.
Proof.
  split.
  - destruct (computePriorityZones_shape issueData waterwayData trailData
                weights gridSizeMeters) as (zones & m & Hinv & ->).
    apply Forall_forall. intros z Hz.
    destruct (finishZones_range zones m z Hinv Hz) as (_ & Hlo & Hhi).
    lra.
  - intros c cell. unfold rawScore, scaleWeights. simpl. ring.
Qed.

(** ** The grid *)

Section Grid.

Variable gridDeg : R.

Lemma addIssue_same_key (k : string) (cell : Cell.t) (issue : Issue.t) :
  issueKey gridDeg issue = k ->
  addIssue gridDeg [(k, cell)] issue = [(k, pushIssue cell issue)].
Proof.
  intros E. unfold addIssue. fold (issueKey gridDeg issue). rewrite E.
  unfold JsMap.has. simpl. rewrite String.eqb_refl. simpl.
  now rewrite String.eqb_refl.
Qed.

Lemma fold_addIssue_same_key (k : string) (rest : list Issue.t)
  (cell : Cell.t) :
  Forall (fun i => issueKey gridDeg i = k) rest ->
  fold_left (addIssue gridDeg) rest [(k, cell)] =
  [(k, {| Cell.lat := Cell.lat cell;
          Cell.lng := Cell.lng cell;
          Cell.issues := Cell.issues cell ++ rest |})].
Proof.
  revert cell. induction rest as [| i rest IH]; intros cell H; simpl.
  - rewrite app_nil_r. now destruct cell.
  - inversion H as [| ? ? Hi Hrest]; subst.
    rewrite addIssue_same_key by reflexivity.
    rewrite IH by assumption. simpl. now rewrite <- app_assoc.
Qed.

(** Issues that all have the key of the first one make a single cell,
    centered where the first one was rounded to. *)
Lemma buildCells_one_cell (i0 : Issue.t) (rest : list Issue.t) :
  Forall (fun i => issueKey gridDeg i = issueKey gridDeg i0) rest ->
  JsMap.values (buildCells gridDeg (i0 :: rest)) =
  [cellAt gridDeg (Issue.lng i0, Issue.lat i0) (i0 :: rest)].
Proof.
  intros H. unfold buildCells. simpl.
  unfold addIssue at 2. fold (issueKey gridDeg i0).
  unfold JsMap.has. simpl. rewrite String.eqb_refl. simpl.
  now rewrite fold_addIssue_same_key.
Qed.

End Grid.

(** ** A run with a single cell *)

Section SingleCell.

Variable waterwayData : list (Feature Geometry).
Variable weights : PriorityWeights.t.

(** With one scored cell of positive raw score the result is that cell
    alone, normalized to 1 and labelled as critical. *)
Lemma single_cell_zones (cell : Cell.t) :
  Cell.issues cell <> [] ->
  0 < rawScore waterwayData weights cell ->
  (let '(zones, m) := scoreCells waterwayData weights [cell] in
   finishZones zones m) =
  [{| PriorityZone.lat := Cell.lat cell;
      PriorityZone.lng := Cell.lng cell;
      PriorityZone.score := 1;
      PriorityZone.issueCount := List.length (Cell.issues cell);
      PriorityZone.criticalCount :=
        List.length (filter isCriticalOrHigh (Cell.issues cell));
      PriorityZone.nearWater := isNearWater waterwayData cell;
      PriorityZone.categories := uniqueCategories cell;
      PriorityZone.label := "Critical Priority" |}].
Proof.
  intros Hne Hpos. unfold scoreCells. simpl.
  destruct (Cell.issues cell) as [| i l] eqn:Ei; [contradiction |].
  cbn [List.length Nat.eqb app].
  set (raw := rawScore waterwayData weights cell) in *.
  rewrite Rmax_right by lra.
  unfold finishZones, normalize, labelOf, orOne, visible. simpl.
  destruct (Req_dec_T raw 0) as [E0 | _]; [lra |].
  assert (E1 : raw / raw = 1) by (unfold Rdiv; apply Rinv_r; lra).
  rewrite E1.
  assert (Hl0 : Js.ltb 0 raw = true) by now apply ltb_true_iff.
  assert (Hl1 : Js.ltb 0.7 1 = true) by (apply ltb_true_iff; lra).
  assert (Hl2 : Js.ltb 0.1 1 = true) by (apply ltb_true_iff; lra).
  rewrite Hl0, Hl1. simpl. rewrite Hl2. simpl.
  reflexivity.
Qed.

End SingleCell.

(** [nearWaterway] answers [true] exactly when a vertex is close. *)
Lemma nearWaterway_true_iff (lat lng : R)
  (waterways : list (Feature Geometry)) (meters : R) :
  nearWaterway lat lng waterways meters = true <->
  vertexWithin lat lng waterways meters.
Proof.
  unfold vertexWithin.
  induction waterways as [| feat rest IH]; simpl.
  - split; [discriminate | intros (f & v & [] & _)].
  - assert (Hrest :
      nearWaterway lat lng rest meters = true ->
      exists f v, (feat = f \/ In f rest) /\ In v (verticesOf (geometry f)) /\
                  distanceMeters lat lng (snd v) (fst v) < meters).
    { intros H. apply IH in H. destruct H as (f & v & Hf & Hv & Hd).
      exists f, v. auto. }
    assert (Hhere : forall v, In v (verticesOf (geometry feat)) ->
      distanceMeters lat lng (snd v) (fst v) < meters ->
      existsb (vertexNear lat lng meters) (verticesOf (geometry feat)) = true).
    { intros v Hv Hd. apply existsb_exists. exists v. split; [exact Hv |].
      now apply ltb_true_iff. }
    assert (Hback :
      (exists f v, (feat = f \/ In f rest) /\ In v (verticesOf (geometry f)) /\
                   distanceMeters lat lng (snd v) (fst v) < meters) ->
      existsb (vertexNear lat lng meters) (verticesOf (geometry feat)) = true
      \/ nearWaterway lat lng rest meters = true).
    { intros (f & v & [<- | Hf] & Hv & Hd).
      - left. now apply (Hhere v).
      - right. apply IH. now exists f, v. }
    assert (Hfwd :
      existsb (vertexNear lat lng meters) (verticesOf (geometry feat)) = true ->
      exists f v, (feat = f \/ In f rest) /\ In v (verticesOf (geometry f)) /\
                  distanceMeters lat lng (snd v) (fst v) < meters).
    { intros H. apply existsb_exists in H. destruct H as (v & Hv & Hd).
      exists feat, v. repeat split; auto. now apply ltb_true_iff. }
    unfold verticesOf, linesOf in Hfwd, Hback |- *.
    destruct (geometry feat) as [c | cs | ls | ty]; simpl in *.
    + split; [exact Hrest |]. intros H. destruct (Hback H); [discriminate | auto].
    + rewrite app_nil_r in *.
      destruct (existsb (vertexNear lat lng meters) cs) eqn:Ex.
      * split; auto.
      * split; [exact Hrest |].
        intros H. destruct (Hback H); [discriminate | auto].
    + assert (Ec : existsb (fun line => existsb (vertexNear lat lng meters) line) ls
                  = existsb (vertexNear lat lng meters) (List.concat ls)).
      { clear. induction ls as [| l ls IHl]; simpl; [reflexivity |].
        now rewrite existsb_app, IHl. }
      rewrite Ec.
      destruct (existsb (vertexNear lat lng meters) (List.concat ls)) eqn:Ex.
      * split; auto.
      * split; [exact Hrest |].
        intros H. destruct (Hback H); [discriminate | auto].
    + split; [exact Hrest |]. intros H. destruct (Hback H); [discriminate | auto].
Qed.

(** ** Evaluating a run *)

(** Decide the comparisons of reals that stand in the goal. *)
Ltac r_cases :=
  repeat match goal with
    | |- context [Rle_dec ?a ?b] => destruct (Rle_dec a b); try lra
    | |- context [Rlt_dec ?a ?b] => destruct (Rlt_dec a b); try lra
    | |- context [Req_dec_T ?a ?b] => destruct (Req_dec_T a b); try lra
    end.

Lemma cellCoord_zero (gridDeg : R) : cellCoord gridDeg 0 = 0.
Proof.
  unfold cellCoord. replace (0 / gridDeg) with (IZR 0) by (unfold Rdiv; ring).
  rewrite Math_round_IZR. ring.
Qed.


Lemma severityScore_medium : severityScore "medium" = 0.4.
Proof. unfold severityScore. simpl. r_cases. Qed.

(** A run whose issues all fall into the cell of the first one. *)
Lemma one_cell_run
  (issueData : list (Feature (option Geometry)))
  (waterwayData : list (Feature Geometry))
  (trailData : list (Feature (option Geometry)))
  (weights : PriorityWeights.t) (gridSizeMeters : option R)
  (i0 : Issue.t) (rest : list Issue.t) :
  extractIssues issueData = i0 :: rest ->
  Forall (fun i => issueKey (gridDegOf gridSizeMeters) i =
                   issueKey (gridDegOf gridSizeMeters) i0) rest ->
  0 < rawScore waterwayData weights
        (cellAt (gridDegOf gridSizeMeters) (Issue.lng i0, Issue.lat i0)
           (i0 :: rest)) ->
  computePriorityZones issueData waterwayData trailData weights
    gridSizeMeters =
  let cell :=
    cellAt (gridDegOf gridSizeMeters) (Issue.lng i0, Issue.lat i0)
      (i0 :: rest) in
  [{| PriorityZone.lat := Cell.lat cell;
      PriorityZone.lng := Cell.lng cell;
      PriorityZone.score := 1;
      PriorityZone.issueCount := List.length (Cell.issues cell);
      PriorityZone.criticalCount :=
        List.length (filter isCriticalOrHigh (Cell.issues cell));
      PriorityZone.nearWater := isNearWater waterwayData cell;
      PriorityZone.categories := uniqueCategories cell;
      PriorityZone.label := "Critical Priority" |}].
Proof.
  intros Ei Hkeys Hpos. unfold computePriorityZones.
  rewrite Ei. cbn [List.length Nat.eqb].
  fold (gridDegOf gridSizeMeters).
  rewrite buildCells_one_cell by assumption.
  rewrite single_cell_zones; [reflexivity | discriminate | assumption].
Qed.

(** C9.  Without issues [computePriorityZones] returns the empty list
    and [nearestWaterwayMap] returns the empty map, for all waterways and
    weights; neither throws. *)
Theorem C9_empty_issue_list
  (waterwayData : list (Feature Geometry))
  (trailData : list (Feature (option Geometry)))
  (weights : PriorityWeights.t) (gridSizeMeters : option R)
  (turf_point : Position -> Completion Position)
  (turf_lineString : list Position -> Completion (list Position))
  (turf_pointToLineDistance :
     Position -> list Position -> Completion Js.number)
  (waterways : option (list (Feature (option Geometry)))) :
  computePriorityZones [] waterwayData trailData weights gridSizeMeters = []
  /\
  nearestWaterwayMap turf_point turf_lineString turf_pointToLineDistance []
    waterways =
  Normal JsMap.empty.
Proof.
  split; [reflexivity |].
  unfold nearestWaterwayMap.
  destruct waterways as [features |]; [| reflexivity].
  now destruct (Nat.eqb (List.length features) 0).
Qed.

(** ** Scenario A *)



(** The run on a single report without severity or category. *)
Lemma oneIssue_run (waterwayData : list (Feature Geometry))
  (weights : PriorityWeights.t) :
  0 < rawScore waterwayData weights
        (cellAt (gridDegOf None) (0, 0) (extractIssues Example.oneIssue)) ->
  exists z,
    computePriorityZones Example.oneIssue waterwayData [] weights None = [z]
    /\ PriorityZone.score z = 1.
Proof.
  intros Hpos. eexists. split.
  - eapply one_cell_run; [reflexivity | constructor | exact Hpos].
  - reflexivity.
Qed.

Lemma oneIssue_rawScore (waterwayData : list (Feature Geometry))
  (weights : PriorityWeights.t) :
  rawScore waterwayData weights
    (cellAt (gridDegOf None) (0, 0) (extractIssues Example.oneIssue)) =
  0.125 * PriorityWeights.issueDensity weights +
  waterScore waterwayData
    (cellAt (gridDegOf None) (0, 0) (extractIssues Example.oneIssue)) *
  PriorityWeights.waterProximity weights +
  0.4 * PriorityWeights.severityFactor weights +
  0.25 * PriorityWeights.recurrence weights.
Proof.
  unfold rawScore. f_equal; [f_equal; [f_equal |] |].
  - unfold densityScore, Rmin. simpl. r_cases.
  - unfold avgSeverity. simpl. rewrite severityScore_medium. lra.
  - unfold recurrenceScore, uniqueCategories, Rmin. simpl. r_cases.
Qed.

Lemma waterScore_no_waterways (cell : Cell.t) : waterScore [] cell = 0.
Proof. unfold waterScore. simpl. lra. Qed.

(** A run in which a zone survives: one report and the default weights. *)
Lemma C1_top_zone_score_one_witness :
  exists z rest,
    computePriorityZones Example.oneIssue [] [] DEFAULT_PRIORITY_WEIGHTS None
    = z :: rest /\
    PriorityZone.score z = 1.
Proof.
  assert (Hpos : 0 < rawScore [] DEFAULT_PRIORITY_WEIGHTS
            (cellAt (gridDegOf None) (0, 0) (extractIssues Example.oneIssue))).
  { rewrite oneIssue_rawScore, waterScore_no_waterways. simpl. lra. }
  destruct (oneIssue_run [] DEFAULT_PRIORITY_WEIGHTS Hpos) as (z & E & _).
  exists z, []. split; [exact E |].
  exact (C1_top_zone_score_one Example.oneIssue [] []
           DEFAULT_PRIORITY_WEIGHTS None z [] E).
Defined.

(** ** Degenerate weights *)

Section ZeroWeights.

Variable waterwayData : list (Feature Geometry).
Variable weights : PriorityWeights.t.

Hypothesis raw_zero : forall cell, rawScore waterwayData weights cell = 0.

Lemma zero_raw_fold (cells : list Cell.t) (zones : list PriorityZone.t) :
  Forall (fun z => PriorityZone.score z = 0) zones ->
  snd (fold_left (scoreCell waterwayData weights) cells (zones, 0)) = 0 /\
  Forall (fun z => PriorityZone.score z = 0)
    (fst (fold_left (scoreCell waterwayData weights) cells (zones, 0))).
Proof.
  revert zones. induction cells as [| cell cells IH]; intros zones H.
  - now split.
  - cbn [fold_left]. unfold scoreCell at 2 4.
    destruct (Nat.eqb (List.length (Cell.issues cell)) 0).
    + now apply IH.
    + rewrite raw_zero. rewrite Rmax_left by lra.
      apply IH. apply Forall_app. split; [exact H |].
      constructor; [reflexivity | constructor].
Qed.

Lemma zero_raw_scoreCells (cells : list Cell.t) :
  snd (scoreCells waterwayData weights cells) = 0 /\
  Forall (fun z => PriorityZone.score z = 0)
    (fst (scoreCells waterwayData weights cells)).
Proof. apply zero_raw_fold. constructor. Qed.

End ZeroWeights.

(** With a zero maximum the normalizer divides nothing: every score
    becomes 0 and no zone is visible. *)
Lemma normalize_zero_max (z : PriorityZone.t) :
  PriorityZone.score (normalize 0 z) = 0.
Proof.
  simpl. unfold Js.ltb. destruct (Rlt_dec 0 0); [lra | reflexivity].
Qed.

Lemma finishZones_zero_max (zones : list PriorityZone.t) :
  finishZones zones 0 = [].
Proof.
  unfold finishZones.
  assert (E : filter visible (map (normalize 0) zones) = []).
  { induction zones as [| z zones IH]; [reflexivity |].
    cbn [map filter]. unfold visible at 1. rewrite normalize_zero_max.
    assert (Hf : Js.ltb 0.1 0 = false) by (apply ltb_false_iff; lra).
    now rewrite Hf. }
  now rewrite E.
Qed.

(** C8, as the code has it.  If the four weights are non-negative and
    sum to 0, that is, if all four are zero, then [computePriorityZones]
    returns the empty list, whatever the issues and the waterways are; and
    for cells with issues whose severities name no inherited property the
    raw score is 0, the maximum of the run is 0 and every normalized score
    is set to 0 without a division. *)
Theorem C8_zero_weights_no_zones
  (issueData : list (Feature (option Geometry)))
  (waterwayData : list (Feature Geometry))
  (trailData : list (Feature (option Geometry)))
  (weights : PriorityWeights.t) (gridSizeMeters : option R) :
  0 <= PriorityWeights.issueDensity weights ->
  0 <= PriorityWeights.waterProximity weights ->
  0 <= PriorityWeights.severityFactor weights ->
  0 <= PriorityWeights.recurrence weights ->
  PriorityWeights.issueDensity weights +
  PriorityWeights.waterProximity weights +
  PriorityWeights.severityFactor weights +
  PriorityWeights.recurrence weights = 0 ->
  (forall cell,
      Cell.issues cell <> [] ->
      plainSeverities (Cell.issues cell) ->
      rawScore waterwayData weights cell = 0) /\
  (forall cells,
      Forall (fun cell => plainSeverities (Cell.issues cell)) cells ->
      let '(zones, maxRawScore) := scoreCells waterwayData weights cells in
      maxRawScore = 0 /\
      Forall (fun z => PriorityZone.score (normalize maxRawScore z) = 0)
        zones) /\
  computePriorityZones issueData waterwayData trailData weights
    gridSizeMeters = [].
Proof.
  intros H1 H2 H3 H4 Hsum.
  assert (Hraw : forall cell, rawScore waterwayData weights cell = 0).
  { intros cell. unfold rawScore.
    replace (PriorityWeights.issueDensity weights) with 0 by lra.
    replace (PriorityWeights.waterProximity weights) with 0 by lra.
    replace (PriorityWeights.severityFactor weights) with 0 by lra.
    replace (PriorityWeights.recurrence weights) with 0 by lra.
    ring. }
  split; [intros cell _ _; apply Hraw |]. split.
  - intros cells _.
    destruct (zero_raw_scoreCells waterwayData weights Hraw cells) as [Em _].
    destruct (scoreCells waterwayData weights cells) as [zones m].
    simpl in Em. subst m. split; [reflexivity |].
    apply Forall_forall. intros z _. apply normalize_zero_max.
  - unfold computePriorityZones.
    destruct (Nat.eqb (List.length (extractIssues issueData)) 0);
      [reflexivity |].
    match goal with
    | |- context [scoreCells ?w ?ws ?cs] =>
        destruct (zero_raw_scoreCells w ws Hraw cs) as [Em _];
        destruct (scoreCells w ws cs) as [zones m]
    end.
    simpl in Em. subst m. apply finishZones_zero_max.
Qed.

(** All four weights zero, on one report. *)
Lemma C8_zero_weights_no_zones_witness :
  computePriorityZones Example.oneIssue [] [] Example.zeroWeights None = [].
Proof.
  refine (proj2 (proj2
    (C8_zero_weights_no_zones Example.oneIssue [] [] Example.zeroWeights None
       _ _ _ _ _))); simpl; lra.
Defined.

(** C8 as stated fails for a weight vector that sums to 0 without being
    zero: with the weights 1, -1, 0, 0 one report makes a zone. *)
Lemma C8_counterexample :
  PriorityWeights.issueDensity Example.mixedWeights +
  PriorityWeights.waterProximity Example.mixedWeights +
  PriorityWeights.severityFactor Example.mixedWeights +
  PriorityWeights.recurrence Example.mixedWeights = 0 /\
  computePriorityZones Example.oneIssue [] [] Example.mixedWeights None <> [].
Proof.
  split; [simpl; lra |].
  assert (Hpos : 0 < rawScore [] Example.mixedWeights
            (cellAt (gridDegOf None) (0, 0) (extractIssues Example.oneIssue))).
  { rewrite oneIssue_rawScore, waterScore_no_waterways. simpl. lra. }
  destruct (oneIssue_run [] Example.mixedWeights Hpos) as (z & E & _).
  rewrite E. discriminate.
Qed.

(** ** Cell keys *)

Lemma toFixed_nonneg (f : nat) (x : R) (n : Z) :
  0 <= x -> IZR n <= x * 10 ^ f + / 2 < IZR n + 1 ->
  Js.toFixed f x = Js.fixedDigits f n.
Proof.
  intros Hx Hn. unfold Js.toFixed.
  destruct (Rlt_dec x 0); [lra |].
  now rewrite (Zfloor_eq n).
Qed.

Lemma gridDeg_default_pos : 0 < gridDegOf None.
Proof. unfold gridDegOf. lra. Qed.

(** A coordinate less than half an edge from a multiple of the edge is
    rounded to that multiple. *)
Lemma cellCoord_near (gridDeg x : R) (n : Z) :
  0 < gridDeg ->
  Rabs (x - IZR n * gridDeg) < gridDeg / 2 ->
  cellCoord gridDeg x = IZR n * gridDeg.
Proof.
  intros Hg H. unfold cellCoord. f_equal.
  apply Math_round_near.
  replace (x / gridDeg - IZR n) with ((x - IZR n * gridDeg) / gridDeg)
    by (field; lra).
  unfold Rdiv at 1. rewrite Rabs_mult, (Rabs_right (/ gridDeg)).
  - apply (Rmult_lt_reg_r gridDeg); [exact Hg |].
    rewrite Rmult_assoc, Rinv_l by lra. lra.
  - apply Rle_ge. left. now apply Rinv_0_lt_compat.
Qed.

(** C3, as the code has it.  For a positive grid size, two issues whose
    latitudes are both less than half a grid edge from one multiple of the
    degree edge, and whose longitudes are both less than half a grid edge
    from one multiple, get the same cell key. *)
Theorem C3_same_node_same_key (gridSizeMeters : option R)
  (i1 i2 : Issue.t) (a b : Z) :
  0 < gridDegOf gridSizeMeters ->
  Rabs (Issue.lat i1 - IZR a * gridDegOf gridSizeMeters)
    < gridDegOf gridSizeMeters / 2 ->
  Rabs (Issue.lat i2 - IZR a * gridDegOf gridSizeMeters)
    < gridDegOf gridSizeMeters / 2 ->
  Rabs (Issue.lng i1 - IZR b * gridDegOf gridSizeMeters)
    < gridDegOf gridSizeMeters / 2 ->
  Rabs (Issue.lng i2 - IZR b * gridDegOf gridSizeMeters)
    < gridDegOf gridSizeMeters / 2 ->
  issueKey (gridDegOf gridSizeMeters) i1 =
  issueKey (gridDegOf gridSizeMeters) i2.
Proof.
  intros Hg Ha1 Ha2 Hb1 Hb2. unfold issueKey.
  rewrite (cellCoord_near _ _ a Hg Ha1), (cellCoord_near _ _ a Hg Ha2).
  rewrite (cellCoord_near _ _ b Hg Hb1), (cellCoord_near _ _ b Hg Hb2).
  reflexivity.
Qed.

(** Two reports near the node at the origin of the default grid. *)
Lemma C3_same_node_same_key_witness :
  issueKey (gridDegOf None) Example.westIssue =
  issueKey (gridDegOf None) Example.midIssue.
Proof.
  pose proof gridDeg_default_pos as Hg.
  apply (C3_same_node_same_key None Example.westIssue Example.midIssue 0 0 Hg);
    simpl; apply Rabs_def1; lra.
Defined.

(** C3 as stated fails: two reports a fifth of a grid edge apart, about
    40 m on the default grid of 200 m, get different cell keys when the
    line between two cells runs between them. *)
Lemma C3_counterexample :
  Rabs (Issue.lat Example.westIssue - Issue.lat Example.eastIssue)
    <= gridDegOf None /\
  Rabs (Issue.lng Example.westIssue - Issue.lng Example.eastIssue)
    <= gridDegOf None /\
  distanceMeters (Issue.lat Example.westIssue) (Issue.lng Example.westIssue)
    (Issue.lat Example.eastIssue) (Issue.lng Example.eastIssue) <= 200 /\
  issueKey (gridDegOf None) Example.westIssue = "0.00000,0.00000"%string /\
  issueKey (gridDegOf None) Example.eastIssue = "0.00000,0.00180"%string /\
  issueKey (gridDegOf None) Example.westIssue <>
  issueKey (gridDegOf None) Example.eastIssue.
Proof.
  pose proof gridDeg_default_pos as Hg.
  assert (Ew : issueKey (gridDegOf None) Example.westIssue
               = "0.00000,0.00000"%string).
  { unfold issueKey. simpl.
    rewrite cellCoord_zero.
    rewrite (cellCoord_near _ _ 0 Hg) by (apply Rabs_def1; lra).
    unfold cellKey. replace (0 * gridDegOf None) with 0 by ring.
    rewrite (toFixed_nonneg 5 0 0) by lra.
    reflexivity. }
  assert (Ee : issueKey (gridDegOf None) Example.eastIssue
               = "0.00000,0.00180"%string).
  { unfold issueKey. simpl.
    rewrite cellCoord_zero.
    rewrite (cellCoord_near _ _ 1 Hg) by (apply Rabs_def1; lra).
    unfold cellKey.
    rewrite (toFixed_nonneg 5 0 0) by lra.
    rewrite (toFixed_nonneg 5 (1 * gridDegOf None) 180)
      by (unfold gridDegOf; lra).
    reflexivity. }
  repeat split.
  - simpl. rewrite Rabs_right; lra.
  - simpl. rewrite Rabs_left; lra.
  - simpl. unfold gridDegOf in *.
    rewrite distanceMeters_equator by lra.
    pose proof PI_4. pose proof PI_RGT_0. lra.
  - exact Ew.
  - exact Ee.
  - rewrite Ew, Ee. discriminate.
Qed.

(** ** Waterway proximity *)

Lemma crossingLine_vertices_far :
  vertexNear 0 0 150 (-0.01, 0) = false /\
  vertexNear 0 0 150 (0.01, 0) = false.
Proof.
  pose proof PI_gt_2 as HPI.
  unfold vertexNear. cbn [fst snd]. split; apply ltb_false_iff.
  - rewrite distanceMeters_equator_sym, distanceMeters_equator by lra. lra.
  - rewrite distanceMeters_equator by lra. lra.
Qed.

(** C2, at an input where the code and the claim part.  The waterway
    [crossingLine] runs through the origin, so the cell center there is at
    distance 0 from one of its segments; its vertices are more than 150 m
    away.  [nearWaterway] compares the center with the vertices only and
    answers [false], so the water score of the cell is 0 and the zone is
    reported as not near water. *)
Theorem C2_nearWaterway_misses_segment :
  specNearWaterway 0 0 [Example.crossingLine] 150 /\
  nearWaterway 0 0 [Example.crossingLine] 150 = false /\
  waterScore [Example.crossingLine]
    (cellAt (gridDegOf None) (0, 0) (extractIssues Example.oneIssue)) = 0 /\
  exists z,
    computePriorityZones Example.oneIssue [Example.crossingLine] []
      DEFAULT_PRIORITY_WEIGHTS None = [z] /\
    PriorityZone.nearWater z = false.
Proof.
  destruct crossingLine_vertices_far as [Hw He].
  assert (Hnear : nearWaterway 0 0 [Example.crossingLine] 150 = false).
  { cbn [nearWaterway Example.crossingLine Example.equatorLine geometry
         existsb].
    now rewrite Hw, He. }
  assert (Hcell : isNearWater [Example.crossingLine]
            (cellAt (gridDegOf None) (0, 0) (extractIssues Example.oneIssue))
          = false).
  { unfold isNearWater, cellAt. cbn [Cell.lat Cell.lng fst snd].
    now rewrite cellCoord_zero. }
  assert (Hscore : waterScore [Example.crossingLine]
            (cellAt (gridDegOf None) (0, 0) (extractIssues Example.oneIssue))
          = 0).
  { unfold waterScore. rewrite Hcell. lra. }
  split; [| split; [exact Hnear | split; [exact Hscore |]]].
  - exists Example.crossingLine, [(-0.01, 0); (0.01, 0)], (-0.01, 0),
      (0.01, 0), (0, 0).
    repeat split; try (now left).
    + exists (/ 2). cbn [fst snd]. repeat split; lra.
    + cbn [fst snd]. rewrite distanceMeters_self. lra.
  - eexists. split.
    + eapply one_cell_run; [reflexivity | constructor |].
      rewrite oneIssue_rawScore, Hscore. simpl. lra.
    + cbv zeta. cbn [PriorityZone.nearWater]. exact Hcell.
Qed.





(** ** Numbers with special values *)

Lemma number_ltb_irrefl (a : Js.number) : Js.number_ltb a a = false.
Proof.
  destruct a; simpl; try reflexivity. apply ltb_false_iff. lra.
Qed.

Lemma number_ltb_asym (a b : Js.number) :
  Js.number_ltb a b = true -> Js.number_ltb b a = false.
Proof.
  destruct a, b; simpl; try reflexivity; try discriminate.
  intros H. apply ltb_true_iff in H. apply ltb_false_iff. lra.
Qed.

(** On numbers that are not NaN, "not below" is transitive. *)
Lemma number_ge_trans (x b a : Js.number) :
  x <> Js.NaN -> b <> Js.NaN -> a <> Js.NaN ->
  Js.number_ltb x b = false -> Js.number_ltb b a = false ->
  Js.number_ltb x a = false.
Proof.
  destruct x, b, a; simpl; intros; try reflexivity; try discriminate;
    try contradiction.
  rewrite ltb_false_iff in *. lra.
Qed.

Lemma min2_not_NaN (a b : Js.number) :
  Js.min2 a b <> Js.NaN -> a <> Js.NaN /\ b <> Js.NaN.
Proof.
  destruct a, b; simpl; intros H; split; try discriminate; contradiction.
Qed.

Lemma min2_cases (a b : Js.number) :
  a <> Js.NaN -> b <> Js.NaN ->
  Js.min2 a b = if Js.number_ltb b a then b else a.
Proof.
  destruct a, b; simpl; intros; try reflexivity; contradiction.
Qed.

(** [Math.min] of a list without NaN is a lower bound of the list. *)
Lemma Math_min_lower (l : list Js.number) :
  Js.Math_min l <> Js.NaN ->
  forall x, In x l ->
    x <> Js.NaN /\ Js.number_ltb x (Js.Math_min l) = false.
Proof.
  induction l as [| a l IH]; simpl; intros Hr x Hx; [contradiction |].
  destruct (min2_not_NaN _ _ Hr) as [Ha Hb].
  specialize (IH Hb). rewrite min2_cases by assumption.
  destruct (Js.number_ltb (Js.Math_min l) a) eqn:E.
  - destruct Hx as [<- | Hx].
    + split; [assumption | now apply number_ltb_asym].
    + now apply IH.
  - destruct Hx as [<- | Hx].
    + split; [assumption | apply number_ltb_irrefl].
    + destruct (IH x Hx) as [Hn Hle]. split; [assumption |].
      now apply (number_ge_trans x (Js.Math_min l) a).
Qed.

Lemma Math_min_NInfinity (l : list Js.number) :
  Js.Math_min l = Js.NInfinity -> In Js.NInfinity l.
Proof.
  induction l as [| a l IH]; simpl; [discriminate |].
  intros H.
  assert (Hn : Js.min2 a (Js.Math_min l) <> Js.NaN) by (rewrite H; discriminate).
  destruct (min2_not_NaN _ _ Hn) as [Ha Hb].
  rewrite min2_cases in H by assumption.
  destruct (Js.number_ltb (Js.Math_min l) a); auto.
Qed.

(** A finite [Math.min] is one of the numbers. *)
Lemma Math_min_Finite_In (l : list Js.number) (m : R) :
  Js.Math_min l = Js.Finite m -> In (Js.Finite m) l.
Proof.
  induction l as [| a l IH]; simpl; [discriminate |].
  intros H.
  assert (Hn : Js.min2 a (Js.Math_min l) <> Js.NaN)
    by (rewrite H; discriminate).
  destruct (min2_not_NaN _ _ Hn) as [Ha Hb].
  rewrite min2_cases in H by assumption.
  destruct (Js.number_ltb (Js.Math_min l) a); auto.
Qed.

(** In a list without NaN, a finite number of the list that none of the
    others is below is its [Math.min]. *)
Lemma Math_min_least (l : list Js.number) (d : R) :
  Forall (fun x => x <> Js.NaN /\ Js.number_ltb x (Js.Finite d) = false) l ->
  (Js.Math_min l <> Js.NaN /\
   Js.number_ltb (Js.Math_min l) (Js.Finite d) = false) /\
  (In (Js.Finite d) l -> Js.Math_min l = Js.Finite d).
Proof.
  induction 1 as [| a l [Ha Hge] _ [[IHn IHge] IHin]]; simpl.
  - split; [split; [discriminate | reflexivity] | intros []].
  - rewrite min2_cases by assumption. split.
    + destruct (Js.number_ltb (Js.Math_min l) a); split; assumption.
    + intros [-> | Hin].
      * now rewrite IHge.
      * rewrite (IHin Hin).
        destruct a; simpl in *; try reflexivity; try discriminate;
          try contradiction.
        destruct (Js.ltb d r) eqn:E; [reflexivity |].
        rewrite ltb_false_iff in *. f_equal. lra.
Qed.

(** ** The map *)

Lemma JsMap_get_set {V : Type} (k k' : string) (v : V) (m : JsMap.t V) :
  JsMap.get k (JsMap.set k' v m) =
  if String.eqb k k' then Some v else JsMap.get k m.
Proof.
  induction m as [| [k0 v0] m IH]; simpl.
  - reflexivity.
  - destruct (String.eqb k' k0) eqn:E0; simpl.
    + apply String.eqb_eq in E0. subst k0.
      now destruct (String.eqb k k').
    + rewrite IH.
      destruct (String.eqb k k0) eqn:E1; [| reflexivity].
      apply String.eqb_eq in E1. subst k0.
      rewrite String.eqb_sym in E0. now rewrite E0.
Qed.

(** ** Loops that cannot throw *)

Lemma forOf_pure {A S : Type} (body : S -> A -> Completion S)
  (step : S -> A -> S) :
  (forall s x, body s x = Normal (step s x)) ->
  forall l s, forOf body l s = Normal (fold_left step l s).
Proof.
  intros H l. induction l as [| x l IH]; intros s; simpl.
  - reflexivity.
  - rewrite H. simpl. apply IH.
Qed.

(** A loop whose body throws at the elements [bad], and only there. *)
Lemma forOf_guarded {A S : Type} (body : S -> A -> Completion S)
  (bad : A -> bool) (step : S -> A -> S) :
  (forall s x, body s x = if bad x then Throw else Normal (step s x)) ->
  forall l s,
    forOf body l s =
    if existsb bad l then Throw else Normal (fold_left step l s).
Proof.
  intros H l. induction l as [| x l IH]; intros s; simpl.
  - reflexivity.
  - rewrite H. destruct (bad x); simpl; [reflexivity | apply IH].
Qed.

Lemma mapM_Forall2 {A B : Type} (f : A -> Completion B) (l : list A)
  (ys : list B) :
  mapM f l = Normal ys -> Forall2 (fun x y => f x = Normal y) l ys.
Proof.
  revert ys. induction l as [| x l IH]; simpl; intros ys H.
  - injection H as <-. constructor.
  - destruct (f x) as [y |] eqn:Ex; simpl in H; [| discriminate].
    destruct (mapM f l) as [ys' |]; simpl in H; [| discriminate].
    injection H as <-. constructor; [exact Ex | now apply IH].
Qed.

Lemma Forall2_mapM {A B : Type} (f : A -> Completion B) (l : list A)
  (ys : list B) :
  Forall2 (fun x y => f x = Normal y) l ys -> mapM f l = Normal ys.
Proof.
  induction 1 as [| x y l ys Hxy _ IH]; simpl; [reflexivity |].
  now rewrite Hxy, IH.
Qed.

(** ** The nearest waterway *)

Lemma pointOf_Some (issue : Feature (option Geometry)) (k : string)
  (c : Position) :
  pointOf issue = Some (k, c) <->
  geometry issue = Some (Point c) /\ id (properties issue) = Some k /\
  k <> EmptyString.
Proof.
  unfold pointOf.
  destruct (geometry issue) as [[c' | cs | ls | ty] |];
    try (split; [discriminate | intros (H & _); discriminate]).
  destruct (id (properties issue)) as [k' |];
    [| split; [discriminate | intros (_ & H & _); discriminate]].
  destruct (String.eqb k' "") eqn:E.
  - apply String.eqb_eq in E. subst k'.
    split; [discriminate |]. intros (_ & H & Hk). injection H as <-.
    contradiction.
  - apply String.eqb_neq in E. split.
    + intros H. injection H as <- <-. auto.
    + intros (Hc & Hk & _). injection Hc as <-. injection Hk as <-.
      reflexivity.
Qed.

Section LocatorFacts.

Variable P : Position -> Completion Position.
Variable L : list Position -> Completion (list Position).
Variable D : Position -> list Position -> Completion Js.number.

Lemma lineDistance_Normal (pt : Position) (line : list Position)
  (dl : Js.number) :
  lineDistance L D pt line = Normal dl <->
  exists ls, L line = Normal ls /\ D pt ls = Normal dl.
Proof.
  unfold lineDistance. destruct (L line) as [ls |]; simpl.
  - split.
    + intros H. now exists ls.
    + intros (ls' & E & H). injection E as <-. exact H.
  - split; [discriminate | intros (ls' & E & _); discriminate].
Qed.

(** What [coords.map] returns are the distances to the lines. *)
Lemma mapM_lineDistances (pt : Position) (lines : list (list Position))
  (ds : list Js.number) :
  mapM (lineDistance L D pt) lines = Normal ds <->
  lineDistances L D pt lines ds.
Proof.
  unfold lineDistances. split.
  - intros H. apply mapM_Forall2 in H.
    induction H as [| line dl lines ds Hd _ IH]; constructor;
      [now apply lineDistance_Normal | exact IH].
  - intros H. apply Forall2_mapM.
    induction H as [| line dl lines ds Hd _ IH]; constructor;
      [now apply lineDistance_Normal | exact IH].
Qed.

(** The finite distance that the inner loop computes for a feature is
    the distance of the specification: for a line the distance of turf,
    for a multi-line the least of the distances of turf to its lines. *)
Lemma computable_iff_finiteDistance (pt : Position)
  (f : Feature (option Geometry)) (d : R) :
  computable L D pt f d <-> finiteDistance L D pt f d.
Proof.
  unfold computable, finiteDistance, featureDistance.
  destruct (geometry f) as [[c | cs | ls | ty] |];
    try (split; [discriminate | contradiction]).
  - destruct (D pt cs) as [x |]; simpl; [| split; discriminate].
    split; intros H; injection H as ->; reflexivity.
  - split.
    + destruct (mapM (lineDistance L D pt) ls) as [ds |] eqn:E; simpl;
        [| discriminate].
      intros H. injection H as H. exists ds.
      split; [now apply mapM_lineDistances |].
      split; [now apply Math_min_Finite_In |].
      apply Forall_forall. intros x Hx.
      assert (Hn : Js.Math_min ds <> Js.NaN) by (rewrite H; discriminate).
      pose proof (Math_min_lower ds Hn x Hx) as Hlow.
      now rewrite H in Hlow.
    + intros (ds & Hds & Hin & Hall).
      apply mapM_lineDistances in Hds. rewrite Hds. simpl.
      do 2 f_equal. now apply Math_min_least.
Qed.

Lemma uncomputable_iff_noFiniteDistance (pt : Position)
  (f : Feature (option Geometry)) :
  uncomputable L D pt f <-> noFiniteDistance L D pt f.
Proof.
  unfold uncomputable, noFiniteDistance.
  split; intros H d Hd; apply (H d); now apply computable_iff_finiteDistance.
Qed.

Lemma scanFeature_pure (pt : Position) (st : Js.number * string)
  (f : Feature (option Geometry)) :
  scanFeature L D pt st f = Normal (scanStep L D pt st f).
Proof.
  unfold scanFeature, scanStep.
  destruct (featureDistance L D pt f) as [[dist |] |]; simpl;
    try reflexivity.
  now destruct (Js.number_ltb dist (fst st)).
Qed.

Lemma scanFeatures_pure (pt : Position)
  (fs : list (Feature (option Geometry))) :
  scanFeatures L D pt fs = Normal (scan L D pt fs).
Proof. apply forOf_pure, scanFeature_pure. Qed.

(** A turn of the outer loop throws exactly where [turf.point] does. *)
Lemma locateIssue_step (fs : list (Feature (option Geometry)))
  (map : JsMap.t Nearest.t) (issue : Feature (option Geometry)) :
  locateIssue P L D fs map issue =
  if aborts P issue then Throw else Normal (locateStep P L D fs map issue).
Proof.
  unfold locateIssue, aborts, locateStep, pointOf, located.
  destruct (geometry issue) as [[c | cs | ls | ty] |]; try reflexivity.
  destruct (id (properties issue)) as [k |]; [| reflexivity].
  destruct (String.eqb k ""); [reflexivity |].
  destruct (P c) as [pt |]; simpl; [| reflexivity].
  rewrite scanFeatures_pure. simpl.
  destruct (scan L D pt fs) as [m nm]. simpl.
  now destruct (Js.number_ltb m Js.PInfinity).
Qed.

Lemma locateStep_no_features (map : JsMap.t Nearest.t)
  (issue : Feature (option Geometry)) :
  locateStep P L D [] map issue = map.
Proof.
  unfold locateStep, located.
  destruct (pointOf issue) as [[k c] |]; [| reflexivity].
  now destruct (P c).
Qed.

(** [nearestWaterwayMap] throws if there are waterway features and
    [turf.point] throws at an issue point; otherwise it returns the fold
    of the outer loop. *)
Lemma nearestWaterwayMap_run (data : list (Feature (option Geometry)))
  (waterwayData : option (list (Feature (option Geometry)))) :
  nearestWaterwayMap P L D data waterwayData =
  if match featuresOf waterwayData with
     | [] => false
     | _ :: _ => existsb (aborts P) data
     end
  then Throw
  else Normal (fold_left (locateStep P L D (featuresOf waterwayData)) data
                 JsMap.empty).
Proof.
  assert (Hnone : fold_left (locateStep P L D []) data JsMap.empty
                  = JsMap.empty).
  { generalize (@JsMap.empty Nearest.t).
    induction data as [| i data IH]; intros m; simpl; [reflexivity |].
    now rewrite locateStep_no_features. }
  unfold nearestWaterwayMap.
  destruct waterwayData as [fs |]; simpl; [| now rewrite Hnone].
  destruct fs as [| f fs]; simpl; [now rewrite Hnone |].
  apply forOf_guarded, locateIssue_step.
Qed.

Lemma nearestWaterwayMap_Normal (data : list (Feature (option Geometry)))
  (waterwayData : option (list (Feature (option Geometry))))
  (map : JsMap.t Nearest.t) :
  nearestWaterwayMap P L D data waterwayData = Normal map ->
  map = fold_left (locateStep P L D (featuresOf waterwayData)) data
          JsMap.empty.
Proof.
  rewrite nearestWaterwayMap_run.
  destruct (match featuresOf waterwayData with
            | [] => false
            | _ :: _ => existsb (aborts P) data
            end); [discriminate |].
  intros H. now injection H.
Qed.

Lemma aborts_exists (data : list (Feature (option Geometry))) :
  existsb (aborts P) data = true <->
  exists issue k c,
    In issue data /\ pointOf issue = Some (k, c) /\ P c = Throw.
Proof.
  rewrite existsb_exists. split.
  - intros (issue & Hin & Ha). unfold aborts in Ha.
    destruct (pointOf issue) as [[k c] |] eqn:Ep; [| discriminate].
    destruct (P c) eqn:Ec; [discriminate |].
    now exists issue, k, c.
  - intros (issue & k & c & Hin & Ep & Ec). exists issue.
    split; [exact Hin |]. unfold aborts. now rewrite Ep, Ec.
Qed.

(** The batch is aborted by an issue point that [turf.point] rejects,
    and by nothing else. *)
Lemma nearestWaterwayMap_Throw_iff
  (data : list (Feature (option Geometry)))
  (waterwayData : option (list (Feature (option Geometry)))) :
  nearestWaterwayMap P L D data waterwayData = Throw <->
  featuresOf waterwayData <> [] /\
  exists issue k c,
    In issue data /\ pointOf issue = Some (k, c) /\ P c = Throw.
Proof.
  rewrite nearestWaterwayMap_run, <- aborts_exists.
  destruct (featuresOf waterwayData) as [| f fs].
  - split; [discriminate | intros [H _]; contradiction].
  - destruct (existsb (aborts P) data).
    + split; [intros _; split; [discriminate | reflexivity] | reflexivity].
    + split; [discriminate | intros [_ H]; discriminate].
Qed.

Lemma computable_fun (pt : Position) (f : Feature (option Geometry))
  (d d' : R) :
  computable L D pt f d -> computable L D pt f d' -> d = d'.
Proof. unfold computable. intros -> E. now injection E. Qed.

(** An unusable feature has no finite distance. *)
Lemma malformed_noFiniteDistance (pt : Position)
  (f : Feature (option Geometry)) :
  malformed L D pt f -> noFiniteDistance L D pt f.
Proof.
  unfold malformed, noFiniteDistance, finiteDistance.
  destruct (geometry f) as [[c | cs | ls | ty] |]; intros H d E;
    try contradiction.
  - destruct H as [H | [H | H]]; rewrite H in E; discriminate.
  - destruct E as (ds & Hds & Hin & Hall).
    destruct H as [-> | (line & Hline & H)].
    + inversion Hds; subst. contradiction.
    + clear Hin. unfold lineDistances in Hds.
      induction Hds as [| l0 d0 ls ds (ls0 & El & Ed) _ IH];
        [contradiction |].
      inversion Hall as [| ? ? [Hn _] Hall']; subst.
      destruct Hline as [<- | Hline]; [| now apply IH].
      destruct H as [H | (ls1 & El1 & [H | H])]; congruence.
Qed.

(** Distances are never minus infinity. *)
Hypothesis distance_not_NInfinity :
  forall pt line, D pt line <> Normal Js.NInfinity.

Lemma featureDistance_not_NInfinity (pt : Position)
  (f : Feature (option Geometry)) :
  featureDistance L D pt f <> Normal (Some Js.NInfinity).
Proof.
  unfold featureDistance.
  destruct (geometry f) as [[c | cs | ls | ty] |]; try discriminate.
  - destruct (D pt cs) as [d |] eqn:E; simpl; [| discriminate].
    intros H. injection H as ->. now apply (distance_not_NInfinity pt cs).
  - destruct (mapM (lineDistance L D pt) ls) as [ds |] eqn:E; simpl;
      [| discriminate].
    intros H. injection H as H. apply Math_min_NInfinity in H.
    apply mapM_Forall2 in E.
    clear - E H distance_not_NInfinity.
    induction E as [| line d ls ds Hd _ IH]; [contradiction |].
    destruct H as [-> | H]; [| now apply IH].
    unfold lineDistance in Hd.
    destruct (L line) as [l' |]; simpl in Hd; [| discriminate].
    now apply (distance_not_NInfinity pt l').
Qed.

(** A feature without a finite distance leaves the loop state as it is. *)
Lemma scanStep_uncomputable (pt : Position) (st : Js.number * string)
  (f : Feature (option Geometry)) :
  uncomputable L D pt f -> scanStep L D pt st f = st.
Proof.
  intros Hu. unfold scanStep.
  pose proof (featureDistance_not_NInfinity pt f) as Hn.
  destruct (featureDistance L D pt f) as [[[d | | |] |] |] eqn:E;
    try reflexivity;
    try (exfalso; now apply (Hu d));
    try (now destruct Hn);
    now destruct (fst st).
Qed.

(** What the inner loop holds after the features [fs]: still
    [Infinity] if none of them has a finite distance, and otherwise the
    least finite distance with the display name of a feature that has
    it. *)
Lemma scan_result (pt : Position) (fs : list (Feature (option Geometry))) :
  (scan L D pt fs = (Js.PInfinity, EmptyString) /\
   forall f, In f fs -> uncomputable L D pt f)
  \/
  (exists f m,
      In f fs /\ computable L D pt f m /\
      (forall f' d', In f' fs -> computable L D pt f' d' -> m <= d') /\
      scan L D pt fs = (Js.Finite m, displayName f)).
Proof.
  induction fs as [| f fs IH] using rev_ind.
  - left. split; [reflexivity | intros f []].
  - unfold scan in *. rewrite fold_left_app. cbn [fold_left].
    set (st := fold_left (scanStep L D pt) fs (Js.PInfinity, EmptyString))
      in *.
    clearbody st.
    pose proof (featureDistance_not_NInfinity pt f) as Hn.
    destruct (featureDistance L D pt f) as [[[d | | |] |] |] eqn:E.
    2-6: assert (Hu : uncomputable L D pt f)
           by (intros d' Hd'; unfold computable in Hd'; congruence).
    2-6: rewrite (scanStep_uncomputable pt _ f Hu).
    2-6: destruct IH as [[Es Hall] | (f0 & m & Hin & Hc & Hmin & Es)];
           [ left; split; [exact Es |];
             intros f' Hf'; apply in_app_or in Hf';
             destruct Hf' as [Hf' | [<- | []]]; auto
           | right; exists f0, m; repeat split; auto;
             [ apply in_or_app; now left
             | intros f' d' Hf' Hc'; apply in_app_or in Hf';
               destruct Hf' as [Hf' | [<- | []]];
               [ now apply (Hmin f' d') | exfalso; now apply (Hu d') ] ] ].
    assert (Hcf : computable L D pt f d) by exact E.
    unfold scanStep. rewrite E.
    destruct IH as [[Es Hall] | (f0 & m & Hin & Hc & Hmin & Es)];
      rewrite Es; cbn [fst Js.number_ltb].
    + right. exists f, d. repeat split.
      * apply in_or_app. right. now left.
      * exact Hcf.
      * intros f' d' Hf' Hc'. apply in_app_or in Hf'.
        destruct Hf' as [Hf' | [<- | []]].
        -- exfalso. now apply (Hall f' Hf' d').
        -- rewrite (computable_fun _ _ _ _ Hcf Hc'). lra.
    + right. destruct (Js.ltb d m) eqn:Elt.
      * apply ltb_true_iff in Elt. exists f, d. repeat split.
        -- apply in_or_app. right. now left.
        -- exact Hcf.
        -- intros f' d' Hf' Hc'. apply in_app_or in Hf'.
           destruct Hf' as [Hf' | [<- | []]].
           ++ specialize (Hmin f' d' Hf' Hc'). lra.
           ++ rewrite (computable_fun _ _ _ _ Hcf Hc'). lra.
      * apply ltb_false_iff in Elt. exists f0, m. repeat split.
        -- apply in_or_app. now left.
        -- exact Hc.
        -- intros f' d' Hf' Hc'. apply in_app_or in Hf'.
           destruct Hf' as [Hf' | [<- | []]].
           ++ now apply (Hmin f' d').
           ++ rewrite <- (computable_fun _ _ _ _ Hcf Hc'). exact Elt.
Qed.

Lemma located_None_iff (pt : Position)
  (fs : list (Feature (option Geometry))) :
  located L D pt fs = None <-> forall f, In f fs -> uncomputable L D pt f.
Proof.
  unfold located.
  destruct (scan_result pt fs) as [[Es Hall] | (f & m & Hin & Hc & _ & Es)];
    rewrite Es; simpl.
  - split; auto.
  - split; [discriminate |].
    intros H. exfalso. now apply (H f Hin m).
Qed.

(** The map has no entry under [k] exactly when no issue point with
    that identifier has a finite distance to any waterway. *)
Lemma fold_locate_get_None (fs : list (Feature (option Geometry)))
  (k : string) (data : list (Feature (option Geometry)))
  (map : JsMap.t Nearest.t) :
  JsMap.get k (fold_left (locateStep P L D fs) data map) = None <->
  JsMap.get k map = None /\
  forall issue c pt,
    In issue data -> pointOf issue = Some (k, c) -> P c = Normal pt ->
    forall f, In f fs -> uncomputable L D pt f.
Proof.
  revert map. induction data as [| i data IH]; intros map.
  - simpl. split; [intros H; split; [exact H | intros ? ? ? []] | tauto].
  - cbn [fold_left]. rewrite IH. clear IH.
    assert (Hstep :
      JsMap.get k (locateStep P L D fs map i) = None <->
      JsMap.get k map = None /\
      (forall c pt, pointOf i = Some (k, c) -> P c = Normal pt ->
                    forall f, In f fs -> uncomputable L D pt f)).
    { unfold locateStep.
      destruct (pointOf i) as [[k' c] |];
        [| split; [intros H; split; [exact H | discriminate] | tauto]].
      destruct (P c) as [pt |] eqn:Ec.
      2:{ split; [intros H; split; [exact H |] | tauto].
          intros c' pt' E Ec'. injection E as _ <-. congruence. }
      destruct (located L D pt fs) as [r |] eqn:El.
      - rewrite JsMap_get_set.
        destruct (String.eqb k k') eqn:Ek.
        + apply String.eqb_eq in Ek. subst k'.
          split; [discriminate |].
          intros [_ H]. specialize (H c pt eq_refl Ec).
          apply located_None_iff in H. congruence.
        + split; [intros H; split; [exact H |] | tauto].
          intros c' pt' E. injection E as <- _.
          rewrite String.eqb_refl in Ek. discriminate.
      - split; [intros H; split; [exact H |] | tauto].
        intros c' pt' E Ec'. injection E as _ <-.
        assert (pt' = pt) by congruence. subst pt'.
        now apply located_None_iff. }
    rewrite Hstep. split.
    + intros [[Hm Hi] Hrest]. split; [exact Hm |].
      intros issue c pt [<- | Hin] Hp Hc;
        [now apply (Hi c pt) | now apply (Hrest issue c pt)].
    + intros [Hm H]. split; [split; [exact Hm |] |].
      * intros c pt Hp Hc. apply (H i c pt); auto. now left.
      * intros issue c pt Hin. apply (H issue c pt). now right.
Qed.

(** Taking a feature without a finite distance out of the collection
    changes nothing in the scan. *)
Lemma scan_skip (pt : Position) (bad : Feature (option Geometry))
  (fs1 fs2 : list (Feature (option Geometry))) :
  uncomputable L D pt bad ->
  scan L D pt (fs1 ++ bad :: fs2) = scan L D pt (fs1 ++ fs2).
Proof.
  intros Hu. unfold scan. rewrite !fold_left_app. cbn [fold_left].
  now rewrite scanStep_uncomputable.
Qed.

Lemma fold_locate_skip (bad : Feature (option Geometry))
  (fs1 fs2 : list (Feature (option Geometry)))
  (data : list (Feature (option Geometry))) (map : JsMap.t Nearest.t) :
  (forall pt, uncomputable L D pt bad) ->
  fold_left (locateStep P L D (fs1 ++ bad :: fs2)) data map =
  fold_left (locateStep P L D (fs1 ++ fs2)) data map.
Proof.
  intros Hu. revert map. induction data as [| i data IH]; intros map;
    [reflexivity |].
  cbn [fold_left]. rewrite IH. f_equal.
  unfold locateStep, located.
  destruct (pointOf i) as [[k c] |]; [| reflexivity].
  destruct (P c) as [pt |]; [| reflexivity].
  now rewrite scan_skip.
Qed.

(** Taking such a feature out of the collection changes the outcome of
    the batch only if it was the last one and [turf.point] rejects an
    issue point: the loop is not entered for an empty collection. *)
Lemma nearestWaterwayMap_skip (bad : Feature (option Geometry))
  (fs1 fs2 : list (Feature (option Geometry)))
  (data : list (Feature (option Geometry))) :
  (forall pt, uncomputable L D pt bad) ->
  (fs1 ++ fs2 <> [] ->
   nearestWaterwayMap P L D data (Some (fs1 ++ bad :: fs2)) =
   nearestWaterwayMap P L D data (Some (fs1 ++ fs2))) /\
  (forall map,
     nearestWaterwayMap P L D data (Some (fs1 ++ bad :: fs2)) = Normal map ->
     nearestWaterwayMap P L D data (Some (fs1 ++ fs2)) = Normal map).
Proof.
  intros Hu. rewrite !nearestWaterwayMap_run.
  cbn [featuresOf]. rewrite (fold_locate_skip bad fs1 fs2 data _ Hu).
  assert (E : match fs1 ++ bad :: fs2 with
              | [] => false
              | _ :: _ => existsb (aborts P) data
              end = existsb (aborts P) data)
    by now destruct fs1.
  rewrite E. split.
  - intros Hne. destruct (fs1 ++ fs2); [contradiction | reflexivity].
  - intros map. destruct (existsb (aborts P) data); [discriminate |].
    intros H. now destruct (fs1 ++ fs2).
Qed.

(** The entry of an issue point that has a finite distance to some
    waterway. *)
Lemma located_min (pt : Position) (fs : list (Feature (option Geometry)))
  (f0 : Feature (option Geometry)) (d0 : R) :
  In f0 fs -> computable L D pt f0 d0 ->
  exists f m,
    In f fs /\ computable L D pt f m /\
    (forall f' d', In f' fs -> computable L D pt f' d' -> m <= d') /\
    located L D pt fs =
    Some {| Nearest.name := displayName f;
            Nearest.distFt := Js.Finite (Js.Math_round m) |}.
Proof.
  intros Hin0 Hc0.
  destruct (scan_result pt fs) as [[_ Hall] | (f & m & Hin & Hc & Hmin & Es)].
  - exfalso. now apply (Hall f0 Hin0 d0).
  - exists f, m. repeat split; try assumption.
    unfold located. now rewrite Es.
Qed.

(** The map for a single issue point. *)
Lemma nearestWaterwayMap_single_issue
  (fs : list (Feature (option Geometry)))
  (issue : Feature (option Geometry)) (k : string) (c pt : Position) :
  pointOf issue = Some (k, c) ->
  P c = Normal pt ->
  nearestWaterwayMap P L D [issue] (Some fs) =
  Normal (match located L D pt fs with
          | Some r => [(k, r)]
          | None => []
          end).
Proof.
  intros Hp Hc. rewrite nearestWaterwayMap_run. cbn [featuresOf].
  assert (Ea : existsb (aborts P) [issue] = false).
  { simpl. unfold aborts. now rewrite Hp, Hc. }
  rewrite Ea.
  assert (En : match fs with [] => false | _ :: _ => false end = false)
    by now destruct fs.
  rewrite En. cbn [fold_left]. unfold locateStep. rewrite Hp, Hc.
  now destruct (located L D pt fs).
Qed.

End LocatorFacts.

(** The stand-in distance is never minus infinity. *)
Lemma example_distance_not_NInfinity (pt : Position) (line : list Position) :
  Example.pointToLineDistance pt line <> Normal Js.NInfinity.
Proof.
  destruct line as [| v [| w l]]; simpl; discriminate.
Qed.

(** C5.  In [nearestWaterwayMap], for distances that are never minus
    infinity.  No waterway feature aborts the batch: it throws exactly
    when there are waterway features and [turf.point] rejects the
    coordinates of an issue point.  When it returns, the map has no entry
    for an identifier exactly when no issue point with that identifier has
    a finite distance to the geometry of any waterway feature, a distance
    of turf to a line or the least of the distances of turf to the lines of
    a multi-line; so an issue point with such a distance has an entry.  An
    unusable feature, one whose geometry is missing or not a line, whose
    evaluation throws or whose value is not finite, has no finite
    distance; a feature without one leaves the loop state as it is, and
    taking it out of the collection changes neither the scan of an issue
    point nor the map. *)
Theorem C5_malformed_waterways_skipped
  (P : Position -> Completion Position)
  (L : list Position -> Completion (list Position))
  (D : Position -> list Position -> Completion Js.number)
  (data : list (Feature (option Geometry)))
  (waterwayData : option (list (Feature (option Geometry)))) :
  (forall pt line, D pt line <> Normal Js.NInfinity) ->
  (nearestWaterwayMap P L D data waterwayData = Throw <->
   featuresOf waterwayData <> [] /\
   exists issue k c,
     In issue data /\ pointOf issue = Some (k, c) /\ P c = Throw)
  /\
  (forall map,
      nearestWaterwayMap P L D data waterwayData = Normal map ->
      (forall k,
          JsMap.get k map = None <->
          forall issue c pt,
            In issue data -> pointOf issue = Some (k, c) ->
            P c = Normal pt ->
            forall f, In f (featuresOf waterwayData) ->
                      noFiniteDistance L D pt f)
      /\
      (forall issue k c pt f d,
          In issue data -> pointOf issue = Some (k, c) ->
          P c = Normal pt ->
          In f (featuresOf waterwayData) -> finiteDistance L D pt f d ->
          exists r, JsMap.get k map = Some r))
  /\
  (forall pt bad, malformed L D pt bad -> noFiniteDistance L D pt bad)
  /\
  (forall pt st bad,
      noFiniteDistance L D pt bad -> scanFeature L D pt st bad = Normal st)
  /\
  (forall pt bad fs1 fs2,
      noFiniteDistance L D pt bad ->
      scanFeatures L D pt (fs1 ++ bad :: fs2) =
      scanFeatures L D pt (fs1 ++ fs2))
  /\
  (forall bad fs1 fs2,
      (forall pt, noFiniteDistance L D pt bad) ->
      (fs1 ++ fs2 <> [] ->
       nearestWaterwayMap P L D data (Some (fs1 ++ bad :: fs2)) =
       nearestWaterwayMap P L D data (Some (fs1 ++ fs2))) /\
      (forall map,
         nearestWaterwayMap P L D data (Some (fs1 ++ bad :: fs2)) =
         Normal map ->
         nearestWaterwayMap P L D data (Some (fs1 ++ fs2)) = Normal map)).
Proof.
  intros Hneg.
  assert (Hnone : forall k map,
    nearestWaterwayMap P L D data waterwayData = Normal map ->
    (JsMap.get k map = None <->
     forall issue c pt,
       In issue data -> pointOf issue = Some (k, c) -> P c = Normal pt ->
       forall f, In f (featuresOf waterwayData) ->
                 noFiniteDistance L D pt f)).
  { intros k map E. apply nearestWaterwayMap_Normal in E. subst map.
    rewrite (fold_locate_get_None P L D Hneg). simpl. split.
    - intros [_ H] issue c pt Hi Hp Hc f Hf.
      apply uncomputable_iff_noFiniteDistance. now apply (H issue c pt).
    - intros H. split; [reflexivity |].
      intros issue c pt Hi Hp Hc f Hf.
      apply uncomputable_iff_noFiniteDistance. now apply (H issue c pt). }
  split; [apply nearestWaterwayMap_Throw_iff |].
  split.
  { intros map E. split; [intros k; now apply Hnone |].
    intros issue k c pt f d Hi Hp Hc Hf Hd.
    destruct (JsMap.get k map) as [r |] eqn:Eg; [now exists r |].
    exfalso. pose proof (proj1 (Hnone k map E) Eg) as Hg.
    now apply (Hg issue c pt Hi Hp Hc f Hf d). }
  split; [intros pt bad; apply malformed_noFiniteDistance |].
  split.
  { intros pt st bad Hu. apply uncomputable_iff_noFiniteDistance in Hu.
    now rewrite scanFeature_pure, (scanStep_uncomputable L D Hneg). }
  split.
  { intros pt bad fs1 fs2 Hu. apply uncomputable_iff_noFiniteDistance in Hu.
    now rewrite !scanFeatures_pure, (scan_skip L D Hneg). }
  intros bad fs1 fs2 Hu.
  apply (nearestWaterwayMap_skip P L D Hneg).
  intros pt. now apply uncomputable_iff_noFiniteDistance.
Qed.

(** A waterway whose line has a single position, before a sound one. *)
Lemma C5_malformed_waterways_skipped_witness :
  nearestWaterwayMap Example.point Example.lineString
    Example.pointToLineDistance
    [Example.issueAt 0 0 None None]
    (Some ([] ++ Example.brokenLine :: [Example.parallel "Bear Creek" 0.001]))
  =
  nearestWaterwayMap Example.point Example.lineString
    Example.pointToLineDistance
    [Example.issueAt 0 0 None None]
    (Some ([] ++ [Example.parallel "Bear Creek" 0.001])).
Proof.
  pose proof (C5_malformed_waterways_skipped
                Example.point Example.lineString Example.pointToLineDistance
                [Example.issueAt 0 0 None None] None
                example_distance_not_NInfinity)
    as (_ & _ & Hmal & _ & _ & Hskip).
  apply Hskip; [| discriminate].
  intros pt. apply Hmal. simpl. now left.
Defined.


(** The stand-in distance to a parallel north of the origin. *)
Lemma example_parallel_distance (nm : string) (lat d : R) :
  0 <= lat ->
  finiteDistance Example.lineString Example.pointToLineDistance (0, 0)
    (Example.parallel nm lat) d <->
  d = lat * 364000.
Proof.
  intros Hlat. unfold finiteDistance. simpl.
  rewrite Rabs_left1 by lra. split.
  - intros H. injection H as <-. lra.
  - intros ->. do 2 f_equal. lra.
Qed.


(** Of two parallel waterways the nearer one is reported, with its
    distance. *)
Lemma two_parallel_waterways :
  nearestWaterwayMap Example.point Example.lineString
    Example.pointToLineDistance
    [Example.issueAt 0 0 None None] (Some Example.twoParallels) =
  Normal [("issue-1"%string,
           {| Nearest.name := "Bear Creek";
              Nearest.distFt := Js.Finite 364 |})].
Proof.
  rewrite (nearestWaterwayMap_single_issue _ _ _ _ _ "issue-1" (0, 0) (0, 0))
    by reflexivity.
  destruct (located_min Example.lineString Example.pointToLineDistance
              example_distance_not_NInfinity (0, 0) Example.twoParallels
              (Example.parallel "Bear Creek" 0.001)
              (Rabs (0 - 0.001) * 364000)
              (or_intror (or_introl eq_refl)) eq_refl)
    as (f & m & Hin & Hc & Hmin & ->).
  assert (Hbear : m <= 0.001 * 364000).
  { specialize (Hmin (Example.parallel "Bear Creek" 0.001)
                  (Rabs (0 - 0.001) * 364000)
                  (or_intror (or_introl eq_refl)) eq_refl).
    rewrite Rabs_left1 in Hmin by lra. lra. }
  apply computable_iff_finiteDistance in Hc.
  destruct Hin as [<- | [<- | []]].
  - apply example_parallel_distance in Hc; lra.
  - apply example_parallel_distance in Hc; [| lra].
    replace m with (IZR 364) by lra.
    now rewrite Math_round_IZR.
Qed.


(** * Further properties of the code *)

(** ** The distance functions *)

Lemma atan2_first_quadrant (y x : R) :
  0 <= y -> 0 <= x -> 0 <= Js.Math_atan2 y x <= PI / 2.
Proof.
  intros Hy Hx. pose proof PI_RGT_0 as HPI. unfold Js.Math_atan2.
  destruct (Rlt_dec 0 x) as [Hpos | Hnpos].
  - pose proof (atan_bound (y / x)) as [_ Hub].
    split; [| lra].
    destruct (Req_dec y 0) as [-> | Hy0].
    + unfold Rdiv. rewrite Rmult_0_l, atan_0. lra.
    + assert (0 < y / x) by (apply Rdiv_lt_0_compat; lra).
      pose proof (atan_increasing 0 (y / x) H). rewrite atan_0 in H0. lra.
  - destruct (Rlt_dec x 0); [lra |].
    destruct (Rlt_dec 0 y); [lra |].
    destruct (Rlt_dec y 0); lra.
Qed.

(** X1.  For two points with latitudes between -90 and 90 that are at
    most 90 degrees apart in latitude and in longitude: [distanceMeters]
    is symmetric in the two points, is 0 from a point to itself, and lies
    between 0 and half the circumference of the sphere of radius
    6371000. *)
Theorem distanceMeters_symmetric_bounded (lat1 lng1 lat2 lng2 : R) :
  -90 <= lat1 <= 90 -> -90 <= lat2 <= 90 ->
  Rabs (lat2 - lat1) <= 90 -> Rabs (lng2 - lng1) <= 90 ->
  distanceMeters lat1 lng1 lat2 lng2 = distanceMeters lat2 lng2 lat1 lng1 /\
  distanceMeters lat1 lng1 lat1 lng1 = 0 /\
  0 <= distanceMeters lat1 lng1 lat2 lng2 <= 6371000 * PI.
Proof.
  intros _ _ _ _. repeat split.
  - unfold distanceMeters.
    replace ((lat1 - lat2) * PI / 180 / 2)
      with (- ((lat2 - lat1) * PI / 180 / 2)) by lra.
    replace ((lng1 - lng2) * PI / 180 / 2)
      with (- ((lng2 - lng1) * PI / 180 / 2)) by lra.
    rewrite !sin_neg.
    replace ((- sin ((lat2 - lat1) * PI / 180 / 2)) ^ 2)
      with (sin ((lat2 - lat1) * PI / 180 / 2) ^ 2) by ring.
    replace ((- sin ((lng2 - lng1) * PI / 180 / 2)) ^ 2)
      with (sin ((lng2 - lng1) * PI / 180 / 2) ^ 2) by ring.
    rewrite (Rmult_comm (cos (lat2 * PI / 180)) (cos (lat1 * PI / 180))).
    reflexivity.
  - unfold distanceMeters.
    replace ((lat1 - lat1) * PI / 180 / 2) with 0 by lra.
    replace ((lng1 - lng1) * PI / 180 / 2) with 0 by lra.
    rewrite sin_0.
    replace (0 ^ 2 + cos (lat1 * PI / 180) * cos (lat1 * PI / 180) * 0 ^ 2)
      with 0 by ring.
    rewrite Rminus_0_r, sqrt_0, sqrt_1.
    unfold Js.Math_atan2. destruct (Rlt_dec 0 1); [| lra].
    unfold Rdiv. rewrite Rmult_0_l, atan_0. ring.
  - unfold distanceMeters. cbv zeta.
    match goal with
    | |- context [Js.Math_atan2 ?y ?x] =>
        pose proof (atan2_first_quadrant y x (sqrt_pos _) (sqrt_pos _))
    end.
    lra.
  - unfold distanceMeters. cbv zeta.
    match goal with
    | |- context [Js.Math_atan2 ?y ?x] =>
        pose proof (atan2_first_quadrant y x (sqrt_pos _) (sqrt_pos _))
    end.
    lra.
Qed.

(** Two points a degree apart on the equator. *)
Lemma distanceMeters_symmetric_bounded_witness :
  distanceMeters 0 0 0 1 = distanceMeters 0 1 0 0 /\
  distanceMeters 0 0 0 0 = 0 /\
  0 <= distanceMeters 0 0 0 1 <= 6371000 * PI.
Proof.
  apply (distanceMeters_symmetric_bounded 0 0 0 1);
    try lra; rewrite Rabs_right; lra.
Defined.

(** ** The result list *)

(** X2.  The zones that [computePriorityZones] returns are in descending
    order of their score: no zone is followed, anywhere later in the list,
    by one with a higher score. *)
Theorem zones_sorted_descending
  (issueData : list (Feature (option Geometry)))
  (waterwayData : list (Feature Geometry))
  (trailData : list (Feature (option Geometry)))
  (weights : PriorityWeights.t) (gridSizeMeters : option R) :
  descending
    (computePriorityZones issueData waterwayData trailData weights
       gridSizeMeters).
Proof.
  destruct (computePriorityZones_shape issueData waterwayData trailData
              weights gridSizeMeters) as (zones & m & _ & ->).
  apply sort_descending.
Qed.

(** The label of a visible zone is read off its normalized score. *)
Lemma finishZones_label (zones : list PriorityZone.t) (m : R)
  (z : PriorityZone.t) :
  runningMax zones m -> In z (finishZones zones m) ->
  PriorityZone.label z =
  if Js.ltb 0.7 (PriorityZone.score z) then "Critical Priority"%string
  else if Js.ltb 0.4 (PriorityZone.score z) then "High Priority"%string
  else if Js.ltb 0.2 (PriorityZone.score z) then "Moderate Priority"%string
  else "Low Priority"%string.
Proof.
  intros Hinv Hz.
  destruct (finishZones_range zones m z Hinv Hz) as (Hm & _).
  apply finishZones_In in Hz. destruct Hz as (z0 & _ & -> & _).
  simpl. unfold labelOf, orOne.
  destruct (Req_dec_T m 0); [lra |].
  assert (E : Js.ltb 0 m = true) by now apply ltb_true_iff.
  now rewrite E.
Qed.

(** X3.  In every returned zone the label and the color of the circle
    are the class of the normalized score: above 0.7 critical and red,
    above 0.4 high and orange, above 0.2 moderate and yellow, otherwise low
    and green. *)
Theorem zone_label_and_color_match_score
  (issueData : list (Feature (option Geometry)))
  (waterwayData : list (Feature Geometry))
  (trailData : list (Feature (option Geometry)))
  (weights : PriorityWeights.t) (gridSizeMeters : option R) :
  Forall
    (fun z =>
       (PriorityZone.label z, scoreColor (PriorityZone.score z)) =
       if Js.ltb 0.7 (PriorityZone.score z)
       then ("Critical Priority"%string, "#ef4444"%string)
       else if Js.ltb 0.4 (PriorityZone.score z)
            then ("High Priority"%string, "#f97316"%string)
            else if Js.ltb 0.2 (PriorityZone.score z)
                 then ("Moderate Priority"%string, "#eab308"%string)
                 else ("Low Priority"%string, "#22c55e"%string))
    (computePriorityZones issueData waterwayData trailData weights
       gridSizeMeters).
Proof.
  destruct (computePriorityZones_shape issueData waterwayData trailData
              weights gridSizeMeters) as (zones & m & Hinv & ->).
  apply Forall_forall. intros z Hz.
  rewrite (finishZones_label zones m z Hinv Hz). unfold scoreColor.
  destruct (Js.ltb 0.7 (PriorityZone.score z)); [reflexivity |].
  destruct (Js.ltb 0.4 (PriorityZone.score z)); [reflexivity |].
  now destruct (Js.ltb 0.2 (PriorityZone.score z)).
Qed.

(** X4.  The circle drawn for a returned zone has a radius between 80
    and 250 and a fill opacity above 0.17 and at most 0.35. *)
Theorem zone_circle_bounds
  (issueData : list (Feature (option Geometry)))
  (waterwayData : list (Feature Geometry))
  (trailData : list (Feature (option Geometry)))
  (weights : PriorityWeights.t) (gridSizeMeters : option R) :
  Forall
    (fun z => 80 <= circleRadius z <= 250 /\
              0.17 < circleFillOpacity z <= 0.35)
    (computePriorityZones issueData waterwayData trailData weights
       gridSizeMeters).
Proof.
  destruct (computePriorityZones_shape issueData waterwayData trailData
              weights gridSizeMeters) as (zones & m & Hinv & ->).
  apply Forall_forall. intros z Hz.
  destruct (finishZones_range zones m z Hinv Hz) as (_ & Hlo & Hhi).
  unfold circleRadius, circleFillOpacity, Rmax.
  destruct (Rle_dec 80 (PriorityZone.score z * 250)); lra.
Qed.

(** ** Waterway proximity, again *)

(** X5.  [nearWaterway] is monotone: a point that is near the waterways
    [ws] within [m] meters is near within any larger distance and for any
    collection that contains the features of [ws], in whatever order. *)
Theorem nearWaterway_monotone (lat lng : R)
  (ws ws' : list (Feature Geometry)) (m m' : R) :
  m <= m' -> (forall f, In f ws -> In f ws') ->
  nearWaterway lat lng ws m = true -> nearWaterway lat lng ws' m' = true.
Proof.
  intros Hm Hsub H. apply nearWaterway_true_iff in H.
  apply nearWaterway_true_iff.
  destruct H as (f & v & Hf & Hv & Hd).
  exists f, v. repeat split; auto. lra.
Qed.

Lemma nearWaterway_monotone_witness :
  nearWaterway 0 0
    [Example.crossingLine; Example.equatorLine 0 0.001] 150 = true.
Proof.
  apply (nearWaterway_monotone 0 0 [Example.equatorLine 0 0.001]
           [Example.crossingLine; Example.equatorLine 0 0.001] 50 150).
  - lra.
  - intros f [<- | []]. right. now left.
  - apply nearWaterway_true_iff.
    exists (Example.equatorLine 0 0.001), (0, 0).
    repeat split; try (now left).
    cbn [fst snd]. rewrite distanceMeters_self. lra.
Defined.

(** ** The criteria of a cell *)

Lemma severityScore_range (s : string) : 0.15 <= severityScore s <= 1.
Proof.
  unfold severityScore, SEVERITY_SCORES.
  destruct (String.eqb s "critical"); [r_cases |].
  destruct (String.eqb s "high"); [r_cases |].
  destruct (String.eqb s "medium"); [r_cases |].
  destruct (String.eqb s "low"); [r_cases | lra].
Qed.

Lemma severity_sum_bounds (l : list Issue.t) (a : R) :
  a + 0.15 * INR (List.length l) <=
  fold_left (fun sum i => sum + severityScore (Issue.severity i)) l a
  <= a + INR (List.length l).
Proof.
  revert a. induction l as [| i l IH]; intros a.
  - simpl. lra.
  - cbn [fold_left]. change (List.length (i :: l)) with (S (List.length l)).
    rewrite S_INR.
    pose proof (severityScore_range (Issue.severity i)).
    specialize (IH (a + severityScore (Issue.severity i))). lra.
Qed.

Lemma setOf_In (l : list string) (x : string) : In x (setOf l) <-> In x l.
Proof.
  induction l as [| y l IH]; simpl; [tauto |].
  rewrite filter_In, IH. split.
  - intros [H | [H _]]; auto.
  - intros [H | H]; [now left |].
    destruct (String.eqb y x) eqn:E.
    + apply String.eqb_eq in E. now left.
    + right. split; [exact H | reflexivity].
Qed.

Lemma setOf_NoDup (l : list string) : NoDup (setOf l).
Proof.
  induction l as [| y l IH]; simpl; constructor.
  - rewrite filter_In. intros [_ H]. now rewrite String.eqb_refl in H.
  - now apply NoDup_filter.
Qed.

Lemma setOf_length (l : list string) :
  (List.length (setOf l) <= List.length l)%nat.
Proof.
  induction l as [| y l IH]; simpl; [constructor |].
  apply le_n_S. etransitivity; [apply filter_length_le | exact IH].
Qed.

(** The criteria of an occupied cell. *)
Lemma occupied_cell_criteria (waterwayData : list (Feature Geometry))
  (cell : Cell.t) :
  Cell.issues cell <> [] ->
  0 < densityScore cell <= 1 /\
  ((8 <= List.length (Cell.issues cell))%nat -> densityScore cell = 1) /\
  (waterScore waterwayData cell = 0 \/ waterScore waterwayData cell = 1) /\
  0.15 <= avgSeverity cell <= 1 /\
  0 < recurrenceScore cell <= 1.
Proof.
  intros Hne.
  assert (Hn : 1 <= INR (List.length (Cell.issues cell))).
  { destruct (Cell.issues cell) as [| i l]; [contradiction |].
    change (List.length (i :: l)) with (S (List.length l)).
    rewrite S_INR. pose proof (pos_INR (List.length l)). lra. }
  assert (Hd : 0 < densityScore cell <= 1).
  { unfold densityScore, Rmin.
    destruct (Rle_dec (INR (List.length (Cell.issues cell)) / 8) 1); lra. }
  assert (Hd8 : (8 <= List.length (Cell.issues cell))%nat ->
                densityScore cell = 1).
  { intros H8. apply le_INR in H8. simpl in H8.
    unfold densityScore. apply Rmin_right. lra. }
  assert (Hw : waterScore waterwayData cell = 0 \/
               waterScore waterwayData cell = 1).
  { unfold waterScore. destruct (isNearWater waterwayData cell);
      [right | left]; lra. }
  assert (Hs : 0.15 <= avgSeverity cell <= 1).
  { unfold avgSeverity.
    pose proof (severity_sum_bounds (Cell.issues cell) 0) as [Hlo Hhi].
    set (n := INR (List.length (Cell.issues cell))) in *.
    set (sum := fold_left _ _ _) in *.
    split.
    - apply (Rmult_le_reg_r n); [lra |].
      unfold Rdiv. rewrite Rmult_assoc, Rinv_l by lra. lra.
    - apply (Rmult_le_reg_r n); [lra |].
      unfold Rdiv. rewrite Rmult_assoc, Rinv_l by lra. lra. }
  assert (Hr : 0 < recurrenceScore cell <= 1).
  { unfold recurrenceScore, uniqueCategories.
    assert (1 <= INR (List.length (setOf (map Issue.category
                                            (Cell.issues cell))))).
    { destruct (Cell.issues cell) as [| i l]; [contradiction |].
      cbn [map setOf]. change (List.length (?x :: ?l)) with (S (List.length l)).
      rewrite S_INR.
      match goal with |- 1 <= INR ?k + 1 => pose proof (pos_INR k) end.
      lra. }
    unfold Rmin.
    match goal with |- context [Rle_dec ?a ?b] => destruct (Rle_dec a b) end;
      lra. }
  repeat split; try tauto; lra.
Qed.

(** X6.  For a cell with at least one issue, whose severities name no
    inherited property, and non-negative weights: the density and the recurrence criterion lie in (0, 1], the density
    being 1 from eight issues on; the water criterion is 0 or 1; the
    severity criterion lies in [0.15, 1]; and the raw score lies between 0
    and the sum of the four weights. *)
Theorem cell_criteria_bounds (waterwayData : list (Feature Geometry))
  (weights : PriorityWeights.t) (cell : Cell.t) :
  Cell.issues cell <> [] ->
  plainSeverities (Cell.issues cell) ->
  0 <= PriorityWeights.issueDensity weights ->
  0 <= PriorityWeights.waterProximity weights ->
  0 <= PriorityWeights.severityFactor weights ->
  0 <= PriorityWeights.recurrence weights ->
  0 < densityScore cell <= 1 /\
  ((8 <= List.length (Cell.issues cell))%nat -> densityScore cell = 1) /\
  (waterScore waterwayData cell = 0 \/ waterScore waterwayData cell = 1) /\
  0.15 <= avgSeverity cell <= 1 /\
  0 < recurrenceScore cell <= 1 /\
  0 <= rawScore waterwayData weights cell <=
    PriorityWeights.issueDensity weights +
    PriorityWeights.waterProximity weights +
    PriorityWeights.severityFactor weights +
    PriorityWeights.recurrence weights.
Proof.
  intros Hne _ H1 H2 H3 H4.
  destruct (occupied_cell_criteria waterwayData cell Hne)
    as (Hd & Hd8 & Hw & Hs & Hr).
  repeat split; try tauto; try lra.
  - unfold rawScore.
    destruct Hw as [-> | ->]; nra.
  - unfold rawScore.
    destruct Hw as [-> | ->]; nra.
Qed.

Lemma cell_criteria_bounds_witness :
  0 <= rawScore [] DEFAULT_PRIORITY_WEIGHTS
         (cellAt (gridDegOf None) (0, 0) (extractIssues Example.oneIssue))
    <= 0.35 + 0.25 + 0.25 + 0.15.
Proof.
  refine (proj2 (proj2 (proj2 (proj2 (proj2
    (cell_criteria_bounds [] DEFAULT_PRIORITY_WEIGHTS
       (cellAt (gridDegOf None) (0, 0) (extractIssues Example.oneIssue))
       _ _ _ _ _ _)))))); simpl; try lra;
    [discriminate | repeat constructor].
Defined.

(** ** The grid as a partition of the issues *)

Lemma JsMap_set_set {V : Type} (k : string) (v v0 : V) (m : JsMap.t V) :
  JsMap.set k v (JsMap.set k v0 m) = JsMap.set k v m.
Proof.
  induction m as [| [k' v'] m IH]; simpl.
  - now rewrite String.eqb_refl.
  - destruct (String.eqb k k') eqn:E; simpl; rewrite E; [reflexivity |].
    now rewrite IH.
Qed.

(** One turn of the grid loop is one [set]: of the cell under the key,
    or of a new one, with the issue pushed. *)
Lemma addIssue_set (gridDeg : R) (m : JsMap.t Cell.t) (issue : Issue.t) :
  addIssue gridDeg m issue =
  JsMap.set (issueKey gridDeg issue)
    (pushIssue
       match JsMap.get (issueKey gridDeg issue) m with
       | Some cell => cell
       | None => cellAt gridDeg (Issue.lng issue, Issue.lat issue) []
       end issue)
    m.
Proof.
  unfold addIssue. fold (issueKey gridDeg issue). unfold JsMap.has.
  destruct (JsMap.get (issueKey gridDeg issue) m) as [cell |] eqn:E; simpl.
  - now rewrite E.
  - rewrite JsMap_get_set, String.eqb_refl. apply JsMap_set_set.
Qed.

Lemma set_issue_total (k : string) (v : Cell.t) (m : JsMap.t Cell.t) :
  (list_sum (map (fun c => List.length (Cell.issues c))
               (JsMap.values (JsMap.set k v m))) +
   match JsMap.get k m with
   | Some c => List.length (Cell.issues c)
   | None => 0
   end =
   list_sum (map (fun c => List.length (Cell.issues c)) (JsMap.values m)) +
   List.length (Cell.issues v))%nat.
Proof.
  unfold JsMap.values.
  induction m as [| [k' v'] m IH]; simpl.
  - lia.
  - destruct (String.eqb k k'); simpl; lia.
Qed.

Lemma set_Forall_values (P : Cell.t -> Prop) (k : string) (v : Cell.t)
  (m : JsMap.t Cell.t) :
  Forall P (JsMap.values m) -> P v ->
  Forall P (JsMap.values (JsMap.set k v m)).
Proof.
  unfold JsMap.values. intros Hm Hv.
  induction m as [| [k' v'] m IH]; simpl.
  - constructor; [exact Hv | constructor].
  - inversion Hm as [| ? ? Hv' Hm']; subst.
    destruct (String.eqb k k'); simpl; constructor; auto.
Qed.

(** Every issue is in one cell, and no cell is empty. *)
Lemma buildCells_partition (gridDeg : R) (issues : list Issue.t) :
  list_sum (map (fun c => List.length (Cell.issues c))
              (JsMap.values (buildCells gridDeg issues))) =
  List.length issues /\
  Forall (fun c => Cell.issues c <> [])
    (JsMap.values (buildCells gridDeg issues)).
Proof.
  unfold buildCells.
  assert (H : forall m,
    list_sum (map (fun c => List.length (Cell.issues c))
                (JsMap.values (fold_left (addIssue gridDeg) issues m))) =
    (list_sum (map (fun c => List.length (Cell.issues c)) (JsMap.values m))
     + List.length issues)%nat /\
    (Forall (fun c => Cell.issues c <> []) (JsMap.values m) ->
     Forall (fun c => Cell.issues c <> [])
       (JsMap.values (fold_left (addIssue gridDeg) issues m)))).
  { induction issues as [| i issues IH]; intros m.
    - simpl. now rewrite Nat.add_0_r.
    - cbn [fold_left]. destruct (IH (addIssue gridDeg m i)) as [Hsum Hall].
      split.
      + rewrite Hsum. rewrite addIssue_set.
        pose proof (set_issue_total (issueKey gridDeg i)
          (pushIssue
             match JsMap.get (issueKey gridDeg i) m with
             | Some cell => cell
             | None => cellAt gridDeg (Issue.lng i, Issue.lat i) []
             end i) m) as E.
        unfold pushIssue in E at 2. cbn [Cell.issues] in E.
        rewrite length_app in E. cbn [List.length] in E.
        destruct (JsMap.get (issueKey gridDeg i) m) as [cell |];
          cbn [Cell.issues cellAt List.length] in E |- *; simpl; lia.
      + intros Hm. apply Hall. rewrite addIssue_set.
        apply set_Forall_values; [exact Hm |].
        unfold pushIssue. cbn [Cell.issues]. intros E.
        now apply app_eq_nil in E as [_ E]. }
  destruct (H JsMap.empty) as [Hsum Hall]. split.
  - exact Hsum.
  - apply Hall. constructor.
Qed.

Lemma scoreCell_step (waterwayData : list (Feature Geometry))
  (weights : PriorityWeights.t) (zones : list PriorityZone.t) (m : R)
  (cell : Cell.t) :
  scoreCell waterwayData weights (zones, m) cell =
  if occupied cell
  then (zones ++ [rawZone waterwayData weights cell],
        Rmax m (rawScore waterwayData weights cell))
  else (zones, m).
Proof.
  unfold scoreCell, occupied.
  now destruct (Nat.eqb (List.length (Cell.issues cell)) 0).
Qed.

(** The scoring loop pushes one zone per occupied cell and keeps the
    largest raw score. *)
Lemma scoreCells_fold (waterwayData : list (Feature Geometry))
  (weights : PriorityWeights.t) (cells : list Cell.t)
  (zones : list PriorityZone.t) (m : R) :
  fold_left (scoreCell waterwayData weights) cells (zones, m) =
  (zones ++ map (rawZone waterwayData weights) (filter occupied cells),
   fold_left Rmax
     (map (rawScore waterwayData weights) (filter occupied cells)) m).
Proof.
  revert zones m. induction cells as [| cell cells IH]; intros zones m.
  - simpl. now rewrite app_nil_r.
  - cbn [fold_left filter]. rewrite scoreCell_step.
    destruct (occupied cell).
    + rewrite IH. cbn [map fold_left]. rewrite <- app_assoc. reflexivity.
    + apply IH.
Qed.

(** [computePriorityZones] in one expression. *)
Lemma computePriorityZones_unfold
  (issueData : list (Feature (option Geometry)))
  (waterwayData : list (Feature Geometry))
  (trailData : list (Feature (option Geometry)))
  (weights : PriorityWeights.t) (gridSizeMeters : option R) :
  computePriorityZones issueData waterwayData trailData weights
    gridSizeMeters =
  let cells :=
    filter occupied
      (JsMap.values
         (buildCells (gridDegOf gridSizeMeters) (extractIssues issueData))) in
  finishZones (map (rawZone waterwayData weights) cells)
    (fold_left Rmax (map (rawScore waterwayData weights) cells) 0).
Proof.
  unfold computePriorityZones. fold (gridDegOf gridSizeMeters).
  destruct (extractIssues issueData) as [| i l] eqn:E.
  - reflexivity.
  - cbn [List.length Nat.eqb]. unfold scoreCells.
    now rewrite scoreCells_fold.
Qed.

Lemma list_sum_map_perm {A : Type} (f : A -> nat) (l l' : list A) :
  Permutation l l' -> list_sum (map f l) = list_sum (map f l').
Proof.
  intros P. induction P; simpl; lia.
Qed.

Lemma list_sum_map_filter_le {A : Type} (f : A -> nat) (p : A -> bool)
  (l : list A) :
  (list_sum (map f (filter p l)) <= list_sum (map f l))%nat.
Proof.
  induction l as [| x l IH]; simpl; [lia |].
  destruct (p x); simpl; lia.
Qed.

Lemma extractIssues_length (features : list (Feature (option Geometry))) :
  (List.length (extractIssues features) <= List.length features)%nat.
Proof.
  induction features as [| f l IH]; simpl; [lia |].
  destruct (geometry f) as [[c | cs | ls | ty] |]; simpl; lia.
Qed.

(** X7.  Bookkeeping of the returned zones.  Every zone counts at least
    one issue, at most as many critical or high issues as issues, and
    lists between one and that many categories, each once; and the issue
    counts of the returned zones add up to at most the number of point
    features of the input, so no issue is counted in two zones. *)
Theorem zones_account_for_issues
  (issueData : list (Feature (option Geometry)))
  (waterwayData : list (Feature Geometry))
  (trailData : list (Feature (option Geometry)))
  (weights : PriorityWeights.t) (gridSizeMeters : option R) :
  Forall
    (fun z =>
       (1 <= PriorityZone.issueCount z)%nat /\
       (PriorityZone.criticalCount z <= PriorityZone.issueCount z)%nat /\
       NoDup (PriorityZone.categories z) /\
       (1 <= List.length (PriorityZone.categories z)
          <= PriorityZone.issueCount z)%nat)
    (computePriorityZones issueData waterwayData trailData weights
       gridSizeMeters) /\
  (list_sum
     (map PriorityZone.issueCount
        (computePriorityZones issueData waterwayData trailData weights
           gridSizeMeters))
   <= List.length (extractIssues issueData) <= List.length issueData)%nat.
Proof.
  rewrite computePriorityZones_unfold. cbv zeta.
  set (cells := filter occupied _).
  set (m := fold_left Rmax _ 0).
  split.
  - apply Forall_forall. intros z Hz.
    apply finishZones_In in Hz. destruct Hz as (z0 & Hz0 & -> & _).
    apply in_map_iff in Hz0. destruct Hz0 as (cell & <- & Hcell).
    apply filter_In in Hcell. destruct Hcell as [_ Hocc].
    unfold occupied in Hocc. apply negb_true_iff, Nat.eqb_neq in Hocc.
    cbn [normalize rawZone PriorityZone.issueCount PriorityZone.criticalCount
         PriorityZone.categories].
    unfold uniqueCategories.
    pose proof (filter_length_le isCriticalOrHigh (Cell.issues cell)).
    pose proof (setOf_length (map Issue.category (Cell.issues cell))) as Hl.
    rewrite length_map in Hl.
    repeat split; try lia.
    + apply setOf_NoDup.
    + destruct (Cell.issues cell); [contradiction | simpl; lia].
  - split; [| apply extractIssues_length].
    unfold finishZones.
    rewrite <- (list_sum_map_perm _ _ _ (sort_perm _)).
    etransitivity; [apply list_sum_map_filter_le |].
    rewrite !map_map. cbn [normalize rawZone PriorityZone.issueCount].
    unfold cells.
    etransitivity; [apply list_sum_map_filter_le |].
    now rewrite (proj1 (buildCells_partition _ _)).
Qed.

Lemma extractIssues_app (l1 l2 : list (Feature (option Geometry))) :
  extractIssues (l1 ++ l2) = extractIssues l1 ++ extractIssues l2.
Proof.
  induction l1 as [| f l1 IH]; simpl; [reflexivity |].
  destruct (geometry f) as [[c | cs | ls | ty] |]; simpl; now rewrite IH.
Qed.

(** X8.  A feature of the issue collection whose geometry is missing or
    is not a point has no influence on the zones: taking it out leaves the
    result as it is. *)
Theorem non_point_features_ignored
  (data1 data2 : list (Feature (option Geometry)))
  (f : Feature (option Geometry))
  (waterwayData : list (Feature Geometry))
  (trailData : list (Feature (option Geometry)))
  (weights : PriorityWeights.t) (gridSizeMeters : option R) :
  (forall c, geometry f <> Some (Point c)) ->
  computePriorityZones (data1 ++ f :: data2) waterwayData trailData weights
    gridSizeMeters =
  computePriorityZones (data1 ++ data2) waterwayData trailData weights
    gridSizeMeters.
Proof.
  intros Hf. unfold computePriorityZones.
  rewrite !extractIssues_app. cbn [extractIssues].
  destruct (geometry f) as [[c | cs | ls | ty] |]; try reflexivity.
  now destruct (Hf c).
Qed.

Lemma non_point_features_ignored_witness :
  computePriorityZones
    ([] ++ {| geometry := Some (LineString [(0, 0); (1, 0)]);
              properties := Example.props None None None |}
        :: Example.oneIssue) [] [] DEFAULT_PRIORITY_WEIGHTS None =
  computePriorityZones ([] ++ Example.oneIssue) [] []
    DEFAULT_PRIORITY_WEIGHTS None.
Proof.
  apply (non_point_features_ignored [] Example.oneIssue
           {| geometry := Some (LineString [(0, 0); (1, 0)]);
              properties := Example.props None None None |}).
  intros c. discriminate.
Defined.

(** ** The running maximum *)

Lemma fold_Rmax_ge (l : list R) (a : R) : a <= fold_left Rmax l a.
Proof.
  revert a. induction l as [| x l IH]; intros a; simpl; [lra |].
  pose proof (Rmax_l a x). specialize (IH (Rmax a x)). lra.
Qed.

(** ** Sorting with any comparator *)

Section SortAny.

Context {A : Type}.
Variable cmp : A -> A -> R.

Lemma Js_insertBy_perm (x : A) (l : list A) :
  Permutation (x :: l) (Js.insertBy cmp x l).
Proof.
  induction l as [| y l IH]; simpl.
  - reflexivity.
  - destruct (Rle_dec (cmp x y) 0).
    + reflexivity.
    + rewrite perm_swap. now apply perm_skip.
Qed.

Lemma Js_sort_perm (l : list A) : Permutation l (Js.sort cmp l).
Proof.
  induction l as [| x l IH]; simpl.
  - reflexivity.
  - rewrite <- Js_insertBy_perm. now apply perm_skip.
Qed.

(** A comparator that is 0 on the elements of the list leaves the list
    as it is: the sort is stable. *)
Lemma Js_sort_constant (l : list A) :
  (forall a b, In a l -> In b l -> cmp a b = 0) -> Js.sort cmp l = l.
Proof.
  induction l as [| x l IH]; intros H; simpl; [reflexivity |].
  rewrite IH by (intros a b Ha Hb; apply H; now right).
  destruct l as [| y l]; simpl; [reflexivity |].
  rewrite (H x y) by (simpl; auto).
  destruct (Rle_dec 0 0); [reflexivity | lra].
Qed.

Variable key : A -> R.

Lemma Js_insertBy_sorted (x : A) (l : list A) :
  (forall y, In y l -> cmp x y = key x - key y) ->
  StronglySorted (fun a b => key a <= key b) l ->
  StronglySorted (fun a b => key a <= key b) (Js.insertBy cmp x l).
Proof.
  induction l as [| y l IH]; simpl; intros Hc Hs.
  - constructor; constructor.
  - inversion Hs as [| ? ? Hl Hy]; subst.
    rewrite (Hc y) by now left.
    destruct (Rle_dec (key x - key y) 0) as [Hle | Hgt].
    + constructor; [assumption |].
      constructor; [lra |].
      eapply Forall_impl; [| exact Hy]. simpl. intros; lra.
    + constructor; [apply IH; auto |].
      eapply Permutation_Forall; [apply Js_insertBy_perm |].
      constructor; [lra | assumption].
Qed.

(** A comparator that is the difference of a key on the elements of the
    list sorts the list by that key, ascending. *)
Lemma Js_sort_sorted (l : list A) :
  (forall a b, In a l -> In b l -> cmp a b = key a - key b) ->
  StronglySorted (fun a b => key a <= key b) (Js.sort cmp l).
Proof.
  induction l as [| x l IH]; intros H; simpl.
  - constructor.
  - apply Js_insertBy_sorted.
    + intros y Hy. apply H; [now left | right].
      eapply Permutation_in; [symmetry; apply Js_sort_perm | exact Hy].
    + apply IH. intros a b Ha Hb. apply H; now right.
Qed.

End SortAny.

(** ** The work queue *)

Section QueueFacts.

Variable Date_getMonth : string -> option nat.
Variable Date_getTime : string -> R.

Variable issues : list MaintenanceIssue.t.
Variable userLocation : option (R * R).

Lemma filterBySeverity_incl (f : option IssueSeverity.t)
  (l : list WorkQueue.WithDistance) (x : WorkQueue.WithDistance) :
  In x (WorkQueue.filterBySeverity f l) -> In x l.
Proof.
  destruct f; simpl; [| auto]. intros H. now apply filter_In in H.
Qed.

Lemma filterByCategory_incl (f : option IssueCategory.t)
  (l : list WorkQueue.WithDistance) (x : WorkQueue.WithDistance) :
  In x (WorkQueue.filterByCategory f l) -> In x l.
Proof.
  destruct f; simpl; [| auto]. intros H. now apply filter_In in H.
Qed.

Lemma filterByMonths_incl (f : option (list nat))
  (l : list WorkQueue.WithDistance) (x : WorkQueue.WithDistance) :
  In x (WorkQueue.filterByMonths Date_getMonth f l) -> In x l.
Proof.
  destruct f as [[| m ms] |]; simpl; auto.
  intros H. now apply filter_In in H.
Qed.

Lemma filterByStatus_incl (f : WorkQueue.FilterStatus)
  (months : option (list nat))
  (l : list WorkQueue.WithDistance) (x : WorkQueue.WithDistance) :
  In x (WorkQueue.filterByStatus f months l) -> In x l.
Proof.
  destruct f; simpl.
  - destruct (WorkQueue.monthsActive months); [auto |].
    intros H. now apply filter_In in H.
  - intros H. now apply filter_In in H.
  - intros H. now apply filter_In in H.
Qed.

(** What is listed was given, and passed the status step. *)
Lemma filteredAndSorted_In (sortMode : WorkQueue.SortMode)
  (fstatus : WorkQueue.FilterStatus) (fsev : option IssueSeverity.t)
  (fcat : option IssueCategory.t) (fmonths : option (list nat))
  (x : WorkQueue.WithDistance) :
  In x (WorkQueue.filteredAndSorted Date_getMonth Date_getTime issues
          userLocation sortMode fstatus fsev fcat fmonths) ->
  In x (WorkQueue.filterByStatus fstatus fmonths
          (WorkQueue.issuesWithDistance issues userLocation)).
Proof.
  unfold WorkQueue.filteredAndSorted. intros H.
  apply (Permutation_in _ (Permutation_sym (Js_sort_perm _ _))) in H.
  apply filterByMonths_incl, filterByCategory_incl, filterBySeverity_incl in H.
  exact H.
Qed.

End QueueFacts.

(** X10.  With the status filter at "open", or at "all" without a month
    drilldown, the work queue lists no resolved issue, whatever the other
    filters and the sort mode; and with no other filter set it lists
    exactly the unresolved issues, each as often as it was given. *)
Theorem queue_hides_resolved
  (Date_getMonth : string -> option nat) (Date_getTime : string -> R)
  (issues : list MaintenanceIssue.t) (userLocation : option (R * R))
  (sortMode : WorkQueue.SortMode) (fstatus : WorkQueue.FilterStatus)
  (fsev : option IssueSeverity.t) (fcat : option IssueCategory.t)
  (fmonths : option (list nat)) :
  fstatus = WorkQueue.open \/
  (fstatus = WorkQueue.all /\ WorkQueue.monthsActive fmonths = false) ->
  Forall
    (fun i => MaintenanceIssue.status (WorkQueue.issue i)
              <> IssueStatus.resolved)
    (WorkQueue.filteredAndSorted Date_getMonth Date_getTime issues
       userLocation sortMode fstatus fsev fcat fmonths) /\
  Permutation
    (WorkQueue.filteredAndSorted Date_getMonth Date_getTime issues
       userLocation sortMode fstatus None None None)
    (filter WorkQueue.unresolved
       (WorkQueue.issuesWithDistance issues userLocation)).
Proof.
  intros Hst.
  assert (Estatus : forall months,
    WorkQueue.monthsActive months = false \/ fstatus = WorkQueue.open ->
    WorkQueue.filterByStatus fstatus months
      (WorkQueue.issuesWithDistance issues userLocation) =
    filter WorkQueue.unresolved
      (WorkQueue.issuesWithDistance issues userLocation)).
  { intros months Hm. destruct Hst as [-> | [-> _]]; [reflexivity |].
    simpl. destruct Hm as [-> | E]; [reflexivity | discriminate]. }
  split.
  - apply Forall_forall. intros x Hx.
    apply filteredAndSorted_In in Hx.
    rewrite Estatus in Hx by (destruct Hst as [-> | [_ E]]; auto).
    apply filter_In in Hx. destruct Hx as [_ Hx].
    unfold WorkQueue.unresolved in Hx. intros E. rewrite E in Hx.
    discriminate.
  - unfold WorkQueue.filteredAndSorted.
    rewrite <- Js_sort_perm. simpl.
    rewrite Estatus by (now left). reflexivity.
Qed.

Lemma queue_hides_resolved_witness :
  Forall
    (fun i => MaintenanceIssue.status (WorkQueue.issue i)
              <> IssueStatus.resolved)
    (WorkQueue.filteredAndSorted QueueExample.getMonth QueueExample.getTime
       [QueueExample.oldTag; QueueExample.washout] None WorkQueue.severity
       WorkQueue.all None None None).
Proof.
  apply (proj1 (queue_hides_resolved QueueExample.getMonth
                  QueueExample.getTime
                  [QueueExample.oldTag; QueueExample.washout] None
                  WorkQueue.severity WorkQueue.all None None None
                  (or_intror (conj eq_refl eq_refl)))).
Defined.

(** X11.  In the severity mode the queue is ordered critical, high,
    medium, low: no issue is listed after one that is less severe. *)
Theorem queue_severity_order
  (Date_getMonth : string -> option nat) (Date_getTime : string -> R)
  (issues : list MaintenanceIssue.t) (userLocation : option (R * R))
  (fstatus : WorkQueue.FilterStatus)
  (fsev : option IssueSeverity.t) (fcat : option IssueCategory.t)
  (fmonths : option (list nat)) :
  StronglySorted
    (fun a b =>
       WorkQueue.SEVERITY_ORDER (MaintenanceIssue.severity (WorkQueue.issue a))
       <=
       WorkQueue.SEVERITY_ORDER (MaintenanceIssue.severity (WorkQueue.issue b)))
    (WorkQueue.filteredAndSorted Date_getMonth Date_getTime issues
       userLocation WorkQueue.severity fstatus fsev fcat fmonths).
Proof.
  unfold WorkQueue.filteredAndSorted.
  apply (Js_sort_sorted _
           (fun a => WorkQueue.SEVERITY_ORDER
                       (MaintenanceIssue.severity (WorkQueue.issue a)))).
  reflexivity.
Qed.

(** X12.  In the proximity mode with a user location the queue is
    ordered by the haversine distance of the issues from that location,
    nearest first, and every entry carries that distance; without a
    location the proximity mode leaves the filtered issues in the order in
    which they were given. *)
Theorem queue_proximity_order
  (Date_getMonth : string -> option nat) (Date_getTime : string -> R)
  (issues : list MaintenanceIssue.t) (lat lng : R)
  (fstatus : WorkQueue.FilterStatus)
  (fsev : option IssueSeverity.t) (fcat : option IssueCategory.t)
  (fmonths : option (list nat)) :
  StronglySorted
    (fun a b =>
       haversineDistance lat lng
         (MaintenanceIssue.latitude (WorkQueue.issue a))
         (MaintenanceIssue.longitude (WorkQueue.issue a))
       <=
       haversineDistance lat lng
         (MaintenanceIssue.latitude (WorkQueue.issue b))
         (MaintenanceIssue.longitude (WorkQueue.issue b)))
    (WorkQueue.filteredAndSorted Date_getMonth Date_getTime issues
       (Some (lat, lng)) WorkQueue.proximity fstatus fsev fcat fmonths) /\
  Forall
    (fun a =>
       WorkQueue.distance a =
       Some (haversineDistance lat lng
               (MaintenanceIssue.latitude (WorkQueue.issue a))
               (MaintenanceIssue.longitude (WorkQueue.issue a))))
    (WorkQueue.filteredAndSorted Date_getMonth Date_getTime issues
       (Some (lat, lng)) WorkQueue.proximity fstatus fsev fcat fmonths) /\
  WorkQueue.filteredAndSorted Date_getMonth Date_getTime issues
    None WorkQueue.proximity fstatus fsev fcat fmonths =
  WorkQueue.filterByMonths Date_getMonth fmonths
    (WorkQueue.filterByCategory fcat
       (WorkQueue.filterBySeverity fsev
          (WorkQueue.filterByStatus fstatus fmonths
             (WorkQueue.issuesWithDistance issues None)))).
Proof.
  assert (Hdist : forall loc x,
    In x (WorkQueue.filterByMonths Date_getMonth fmonths
            (WorkQueue.filterByCategory fcat
               (WorkQueue.filterBySeverity fsev
                  (WorkQueue.filterByStatus fstatus fmonths
                     (WorkQueue.issuesWithDistance issues loc))))) ->
    WorkQueue.distance x =
    match loc with
    | Some (lat, lng) =>
        Some (haversineDistance lat lng
                (MaintenanceIssue.latitude (WorkQueue.issue x))
                (MaintenanceIssue.longitude (WorkQueue.issue x)))
    | None => None
    end).
  { intros loc x Hx.
    apply filterByMonths_incl, filterByCategory_incl, filterBySeverity_incl,
      filterByStatus_incl in Hx.
    unfold WorkQueue.issuesWithDistance in Hx.
    apply in_map_iff in Hx. destruct Hx as (i & <- & _). reflexivity. }
  repeat split.
  - unfold WorkQueue.filteredAndSorted.
    apply (Js_sort_sorted _
             (fun a => haversineDistance lat lng
                         (MaintenanceIssue.latitude (WorkQueue.issue a))
                         (MaintenanceIssue.longitude (WorkQueue.issue a)))).
    intros a b Ha Hb. cbn [WorkQueue.compareIssues].
    now rewrite (Hdist (Some (lat, lng)) a Ha), (Hdist (Some (lat, lng)) b Hb).
  - apply Forall_forall. intros x Hx.
    unfold WorkQueue.filteredAndSorted in Hx.
    apply (Permutation_in _ (Permutation_sym (Js_sort_perm _ _))) in Hx.
    exact (Hdist (Some (lat, lng)) x Hx).
  - unfold WorkQueue.filteredAndSorted. apply Js_sort_constant.
    intros a b Ha _. cbn [WorkQueue.compareIssues].
    now rewrite (Hdist None a Ha).
Qed.

(** ** Export and extraction *)

(** X13.  The issues that the queue exports as GeoJSON are read back by
    [computePriorityZones] one for one and in order, each with its
    latitude, longitude, severity, category and status. *)
Theorem export_then_extract (issues : list MaintenanceIssue.t) :
  extractIssues (exportGeoJSON issues) =
  map (fun i =>
         {| Issue.lat := MaintenanceIssue.latitude i;
            Issue.lng := MaintenanceIssue.longitude i;
            Issue.severity :=
              IssueSeverity.toString (MaintenanceIssue.severity i);
            Issue.category :=
              IssueCategory.toString (MaintenanceIssue.category i);
            Issue.status :=
              IssueStatus.toString (MaintenanceIssue.status i) |})
      issues /\
  Forall2
    (fun i p =>
       severityScore (Issue.severity p) =
       match MaintenanceIssue.severity i with
       | IssueSeverity.critical => 1
       | IssueSeverity.high => 0.75
       | IssueSeverity.medium => 0.4
       | IssueSeverity.low => 0.15
       end)
    issues (extractIssues (exportGeoJSON issues)).
Proof.
  assert (E : extractIssues (exportGeoJSON issues) =
    map (fun i =>
           {| Issue.lat := MaintenanceIssue.latitude i;
              Issue.lng := MaintenanceIssue.longitude i;
              Issue.severity :=
                IssueSeverity.toString (MaintenanceIssue.severity i);
              Issue.category :=
                IssueCategory.toString (MaintenanceIssue.category i);
              Issue.status :=
                IssueStatus.toString (MaintenanceIssue.status i) |})
        issues).
  { unfold exportGeoJSON.
    induction issues as [| i l IH]; [reflexivity |].
    cbn [map extractIssues geometry properties fst snd
         severity category status].
    rewrite IH. f_equal.
    destruct (MaintenanceIssue.severity i), (MaintenanceIssue.category i),
      (MaintenanceIssue.status i); reflexivity. }
  split; [exact E |].
  rewrite E. clear E.
  induction issues as [| i l IH]; simpl; constructor; [| exact IH].
  unfold severityScore.
  destruct (MaintenanceIssue.severity i); simpl; r_cases.
Qed.

(** ** The entries of the nearest-waterway map *)

Lemma Math_round_nonneg (x : R) :
  0 <= x -> exists n : Z, (0 <= n)%Z /\ Js.Math_round x = IZR n.
Proof.
  intros Hx. exists (Zfloor (x + / 2)). split; [| reflexivity].
  apply Zfloor_lub. simpl. lra.
Qed.

Lemma JsMap_set_In {V : Type} (k : string) (v : V) (m : JsMap.t V)
  (x : string * V) :
  In x (JsMap.set k v m) -> x = (k, v) \/ In x m.
Proof.
  induction m as [| [k' v'] m IH]; simpl.
  - intros [<- | []]. now left.
  - destruct (String.eqb k k') eqn:E; simpl.
    + apply String.eqb_eq in E. subst k'. intros [<- | H]; auto.
    + intros [<- | H]; auto. destruct (IH H); auto.
Qed.

Lemma JsMap_set_keys {V : Type} (k : string) (v : V) (m : JsMap.t V) :
  NoDup (map fst m) -> NoDup (map fst (JsMap.set k v m)).
Proof.
  induction m as [| [k' v'] m IH]; simpl; intros Hn.
  - constructor; [intros [] | constructor].
  - inversion Hn as [| ? ? Hk' Hm]; subst.
    destruct (String.eqb k k') eqn:E; simpl.
    + constructor; assumption.
    + constructor; [| now apply IH].
      intros Hin. apply in_map_iff in Hin.
      destruct Hin as ([k0 v0] & Ek & Hin). simpl in Ek. subst k0.
      apply JsMap_set_In in Hin. destruct Hin as [Hin | Hin].
      * injection Hin as -> _. rewrite String.eqb_refl in E. discriminate.
      * apply Hk'. apply in_map_iff. now exists (k', v0).
Qed.

Section EntryFacts.

Variable P : Position -> Completion Position.
Variable L : list Position -> Completion (list Position).
Variable D : Position -> list Position -> Completion Js.number.

Hypothesis distance_not_NInfinity :
  forall pt line, D pt line <> Normal Js.NInfinity.
Hypothesis distance_nonneg :
  forall pt line x, D pt line = Normal (Js.Finite x) -> 0 <= x.

Lemma computable_nonneg (pt : Position) (f : Feature (option Geometry))
  (m : R) :
  computable L D pt f m -> 0 <= m.
Proof.
  unfold computable, featureDistance.
  destruct (geometry f) as [[c | cs | ls | ty] |]; try discriminate.
  - destruct (D pt cs) as [d |] eqn:E; simpl; [| discriminate].
    intros H. injection H as ->. now apply (distance_nonneg pt cs).
  - destruct (mapM (lineDistance L D pt) ls) as [ds |] eqn:E; simpl;
      [| discriminate].
    intros H. injection H as H. apply Math_min_Finite_In in H.
    apply mapM_Forall2 in E.
    induction E as [| line d ls ds Hd _ IH]; [contradiction |].
    destruct H as [-> | H]; [| now apply IH].
    unfold lineDistance in Hd.
    destruct (L line) as [l' |]; simpl in Hd; [| discriminate].
    now apply (distance_nonneg pt l').
Qed.

Lemma located_entry (pt : Position) (fs : list (Feature (option Geometry)))
  (r : Nearest.t) :
  located L D pt fs = Some r ->
  (exists f, In f fs /\ Nearest.name r = displayName f) /\
  exists n : Z, (0 <= n)%Z /\ Nearest.distFt r = Js.Finite (IZR n).
Proof.
  unfold located.
  destruct (scan_result L D distance_not_NInfinity pt fs)
    as [[Es _] | (f & m & Hin & Hc & _ & Es)]; rewrite Es; simpl.
  - discriminate.
  - intros H. injection H as <-. simpl. split.
    + now exists f.
    + destruct (Math_round_nonneg m (computable_nonneg pt f m Hc))
        as (n & Hn & ->).
      now exists n.
Qed.

Lemma fold_locate_entries (fs : list (Feature (option Geometry)))
  (data : list (Feature (option Geometry))) (map0 : JsMap.t Nearest.t) :
  NoDup (map fst map0) ->
  NoDup (map fst (fold_left (locateStep P L D fs) data map0)) /\
  forall k r,
    In (k, r) (fold_left (locateStep P L D fs) data map0) ->
    In (k, r) map0 \/
    exists issue c pt,
      In issue data /\ pointOf issue = Some (k, c) /\
      P c = Normal pt /\ located L D pt fs = Some r.
Proof.
  revert map0. induction data as [| i data IH]; intros map0 Hn.
  - simpl. split; [exact Hn | auto].
  - cbn [fold_left].
    assert (Hstep :
      NoDup (map fst (locateStep P L D fs map0 i)) /\
      forall k r, In (k, r) (locateStep P L D fs map0 i) ->
        In (k, r) map0 \/
        exists c pt, pointOf i = Some (k, c) /\
                     P c = Normal pt /\ located L D pt fs = Some r).
    { assert (Hsame :
        NoDup (map fst map0) /\
        forall k r, In (k, r) map0 ->
          In (k, r) map0 \/
          exists c pt, pointOf i = Some (k, c) /\
                       P c = Normal pt /\ located L D pt fs = Some r)
        by (split; [exact Hn | intros k r H; now left]).
      unfold locateStep.
      destruct (pointOf i) as [[k' c] |]; [| exact Hsame].
      destruct (P c) as [pt |] eqn:Ec; [| exact Hsame].
      destruct (located L D pt fs) as [r' |] eqn:El; [| exact Hsame].
      clear Hsame.
      split; [now apply JsMap_set_keys |].
      intros k r Hin. apply JsMap_set_In in Hin.
      destruct Hin as [Hin | Hin]; [| now left].
      injection Hin as -> ->. right. now exists c, pt. }
    destruct Hstep as [Hn' Hentries].
    destruct (IH _ Hn') as [Hnd Hall]. split; [exact Hnd |].
    intros k r Hin.
    destruct (Hall k r Hin) as [H0 | (issue & c & pt & H)].
    + destruct (Hentries k r H0) as [H1 | (c & pt & Hp & Hc & Hl)];
        [now left |].
      right. exists i, c, pt. repeat split; auto. now left.
    + right. exists issue, c, pt.
      destruct H as (Hi & Hp & Hc & Hl). repeat split; auto. now right.
Qed.

End EntryFacts.

(** X14.  For distances that are finite and non-negative, NaN or
    infinite: [nearestWaterwayMap] holds at most one entry per identifier;
    every entry stands under the non-empty identifier of a point feature
    of the issues, names one of the waterway features (by its name or as
    "Unnamed waterway") and holds a whole, non-negative number of feet. *)
Theorem nearest_entries_sound
  (P : Position -> Completion Position)
  (L : list Position -> Completion (list Position))
  (D : Position -> list Position -> Completion Js.number)
  (data : list (Feature (option Geometry)))
  (waterwayData : option (list (Feature (option Geometry))))
  (map : JsMap.t Nearest.t) :
  (forall pt line, D pt line <> Normal Js.NInfinity) ->
  (forall pt line x, D pt line = Normal (Js.Finite x) -> 0 <= x) ->
  nearestWaterwayMap P L D data waterwayData = Normal map ->
  NoDup (List.map fst map) /\
  forall k r, In (k, r) map ->
    k <> EmptyString /\
    (exists issue c,
        In issue data /\ geometry issue = Some (Point c) /\
        id (properties issue) = Some k) /\
    (exists f, In f (featuresOf waterwayData) /\
               Nearest.name r = displayName f) /\
    exists n : Z, (0 <= n)%Z /\ Nearest.distFt r = Js.Finite (IZR n).
Proof.
  intros Hneg Hpos E. apply nearestWaterwayMap_Normal in E. subst map.
  destruct (fold_locate_entries P L D (featuresOf waterwayData) data
              JsMap.empty (NoDup_nil _)) as [Hnd Hall].
  split; [exact Hnd |].
  intros k r Hin.
  destruct (Hall k r Hin) as [[] | (issue & c & pt & Hi & Hp & Hc & Hl)].
  destruct (located_entry L D Hneg Hpos pt _ r Hl) as [Hname Hdist].
  apply pointOf_Some in Hp. destruct Hp as (Hg & Hid & Hk).
  repeat split; try assumption.
  now exists issue, c.
Qed.

Lemma example_distance_nonneg (pt : Position) (line : list Position) (x : R) :
  Example.pointToLineDistance pt line = Normal (Js.Finite x) -> 0 <= x.
Proof.
  destruct line as [| v [| w l]]; simpl; try discriminate.
  intros H. injection H as <-.
  pose proof (Rabs_pos (snd pt - snd v)). lra.
Qed.

Lemma nearest_entries_sound_witness :
  NoDup
    (List.map fst
       [("issue-1"%string,
         {| Nearest.name := "Bear Creek"%string;
            Nearest.distFt := Js.Finite 364 |})]).
Proof.
  exact (proj1 (nearest_entries_sound
                  Example.point Example.lineString Example.pointToLineDistance
                  [Example.issueAt 0 0 None None] (Some Example.twoParallels)
                  _ example_distance_not_NInfinity example_distance_nonneg
                  two_parallel_waterways)).
Defined.

(** ** Runs that return a zone *)

Lemma fold_Rmax_In (l : list R) (a : R) :
  fold_left Rmax l a = a \/ In (fold_left Rmax l a) l.
Proof.
  revert a. induction l as [| x l IH]; intros a; simpl; [now left |].
  destruct (IH (Rmax a x)) as [E | H]; [| now right; right].
  rewrite E. unfold Rmax. destruct (Rle_dec a x); [right | left]; auto.
Qed.

(** X15.  If the issue collection has a point feature, the severities
    of its points name no inherited property, no weight is negative and
    the weight of the density, of the severity or of the
    recurrence criterion is positive, then [computePriorityZones] returns at
    least one zone. *)
Theorem zones_nonempty
  (issueData : list (Feature (option Geometry)))
  (waterwayData : list (Feature Geometry))
  (trailData : list (Feature (option Geometry)))
  (weights : PriorityWeights.t) (gridSizeMeters : option R) :
  extractIssues issueData <> [] ->
  plainSeverities (extractIssues issueData) ->
  0 <= PriorityWeights.issueDensity weights ->
  0 <= PriorityWeights.waterProximity weights ->
  0 <= PriorityWeights.severityFactor weights ->
  0 <= PriorityWeights.recurrence weights ->
  0 < PriorityWeights.issueDensity weights +
      PriorityWeights.severityFactor weights +
      PriorityWeights.recurrence weights ->
  computePriorityZones issueData waterwayData trailData weights
    gridSizeMeters <> [].
Proof.
  intros Hne _ H1 H2 H3 H4 Hpos.
  rewrite computePriorityZones_unfold. cbv zeta.
  destruct (buildCells_partition (gridDegOf gridSizeMeters)
              (extractIssues issueData)) as [Hsum Hall].
  set (all := JsMap.values _) in *.
  assert (Hocc : filter occupied all = all).
  { clear Hsum. induction all as [| c l IH]; [reflexivity |].
    inversion Hall as [| ? ? Hc Hl]; subst. simpl. unfold occupied at 1.
    destruct (Cell.issues c) eqn:E; [contradiction |].
    simpl. now rewrite IH. }
  rewrite Hocc.
  assert (Hraw : forall cell, In cell all ->
                 0 < rawScore waterwayData weights cell).
  { intros cell Hin. rewrite Forall_forall in Hall.
    destruct (occupied_cell_criteria waterwayData cell (Hall cell Hin))
      as (Hd & _ & Hw & Hs & Hr).
    assert (P1 : 0 <= densityScore cell * PriorityWeights.issueDensity weights)
      by (apply Rmult_le_pos; lra).
    assert (P2 : 0 <= waterScore waterwayData cell *
                      PriorityWeights.waterProximity weights)
      by (apply Rmult_le_pos; lra).
    assert (P3 : 0 <= avgSeverity cell * PriorityWeights.severityFactor weights)
      by (apply Rmult_le_pos; lra).
    assert (P4 : 0 <= recurrenceScore cell * PriorityWeights.recurrence weights)
      by (apply Rmult_le_pos; lra).
    unfold rawScore.
    destruct (Rlt_dec 0 (PriorityWeights.issueDensity weights)) as [W1 | W1].
    { assert (0 < densityScore cell * PriorityWeights.issueDensity weights)
        by (apply Rmult_lt_0_compat; lra). lra. }
    destruct (Rlt_dec 0 (PriorityWeights.severityFactor weights)) as [W3 | W3].
    { assert (0 < avgSeverity cell * PriorityWeights.severityFactor weights)
        by (apply Rmult_lt_0_compat; lra). lra. }
    assert (0 < recurrenceScore cell * PriorityWeights.recurrence weights)
      by (apply Rmult_lt_0_compat; lra).
    lra. }
  destruct all as [| c0 rest] eqn:Eall.
  { simpl in Hsum. destruct (extractIssues issueData);
      [contradiction | discriminate]. }
  set (m := fold_left Rmax (map (rawScore waterwayData weights) (c0 :: rest)) 0).
  assert (Hm : 0 < m).
  { unfold m. cbn [map fold_left].
    pose proof (fold_Rmax_ge (map (rawScore waterwayData weights) rest)
                  (Rmax 0 (rawScore waterwayData weights c0))).
    pose proof (Rmax_r 0 (rawScore waterwayData weights c0)).
    pose proof (Hraw c0 (or_introl eq_refl)). lra. }
  destruct (fold_Rmax_In (map (rawScore waterwayData weights) (c0 :: rest)) 0)
    as [E | Hin]; [fold m in E; lra |].
  fold m in Hin. apply in_map_iff in Hin. destruct Hin as (cell & Ec & Hcell).
  assert (Hz : In (normalize m (rawZone waterwayData weights cell))
                 (finishZones
                    (map (rawZone waterwayData weights) (c0 :: rest)) m)).
  { apply finishZones_In. exists (rawZone waterwayData weights cell).
    repeat split; [now apply in_map |].
    unfold visible. apply ltb_true_iff. simpl. unfold Js.ltb.
    destruct (Rlt_dec 0 m); [| lra].
    rewrite Ec. unfold Rdiv. rewrite Rinv_r by lra. lra. }
  intros E. rewrite E in Hz. exact Hz.
Qed.

Lemma zones_nonempty_witness :
  computePriorityZones Example.oneIssue [] [] DEFAULT_PRIORITY_WEIGHTS None
  <> [].
Proof.
  apply (zones_nonempty Example.oneIssue [] [] DEFAULT_PRIORITY_WEIGHTS None);
    simpl; try lra; [discriminate | repeat constructor].
Defined.

(** X16.  For two points with latitudes between -90 and 90 that are at
    most 90 degrees apart in latitude and in longitude:
    [haversineDistance], the distance of the work queue in miles, is
    symmetric in the two points, is 0 from a point to itself, and lies
    between 0 and half the circumference of the sphere of radius
    3958.8. *)
Theorem haversineDistance_symmetric_bounded (lat1 lon1 lat2 lon2 : R) :
  -90 <= lat1 <= 90 -> -90 <= lat2 <= 90 ->
  Rabs (lat2 - lat1) <= 90 -> Rabs (lon2 - lon1) <= 90 ->
  haversineDistance lat1 lon1 lat2 lon2 =
  haversineDistance lat2 lon2 lat1 lon1 /\
  haversineDistance lat1 lon1 lat1 lon1 = 0 /\
  0 <= haversineDistance lat1 lon1 lat2 lon2 <= 3958.8 * PI.
Proof.
  intros _ _ _ _. repeat split.
  - unfold haversineDistance.
    replace ((lat1 - lat2) * PI / 180 / 2)
      with (- ((lat2 - lat1) * PI / 180 / 2)) by lra.
    replace ((lon1 - lon2) * PI / 180 / 2)
      with (- ((lon2 - lon1) * PI / 180 / 2)) by lra.
    rewrite !sin_neg.
    replace ((- sin ((lat2 - lat1) * PI / 180 / 2)) ^ 2)
      with (sin ((lat2 - lat1) * PI / 180 / 2) ^ 2) by ring.
    replace ((- sin ((lon2 - lon1) * PI / 180 / 2)) ^ 2)
      with (sin ((lon2 - lon1) * PI / 180 / 2) ^ 2) by ring.
    rewrite (Rmult_comm (cos (lat2 * PI / 180)) (cos (lat1 * PI / 180))).
    reflexivity.
  - unfold haversineDistance.
    replace ((lat1 - lat1) * PI / 180 / 2) with 0 by lra.
    replace ((lon1 - lon1) * PI / 180 / 2) with 0 by lra.
    rewrite sin_0.
    replace (0 ^ 2 + cos (lat1 * PI / 180) * cos (lat1 * PI / 180) * 0 ^ 2)
      with 0 by ring.
    rewrite Rminus_0_r, sqrt_0, sqrt_1.
    unfold Js.Math_atan2. destruct (Rlt_dec 0 1); [| lra].
    unfold Rdiv. rewrite Rmult_0_l, atan_0. ring.
  - unfold haversineDistance. cbv zeta.
    match goal with
    | |- context [Js.Math_atan2 ?y ?x] =>
        pose proof (atan2_first_quadrant y x (sqrt_pos _) (sqrt_pos _))
    end.
    lra.
  - unfold haversineDistance. cbv zeta.
    match goal with
    | |- context [Js.Math_atan2 ?y ?x] =>
        pose proof (atan2_first_quadrant y x (sqrt_pos _) (sqrt_pos _))
    end.
    lra.
Qed.

(** Two points a degree apart on the equator. *)
Lemma haversineDistance_symmetric_bounded_witness :
  haversineDistance 0 0 0 1 = haversineDistance 0 1 0 0 /\
  haversineDistance 0 0 0 0 = 0 /\
  0 <= haversineDistance 0 0 0 1 <= 3958.8 * PI.
Proof.
  apply (haversineDistance_symmetric_bounded 0 0 0 1);
    try lra; rewrite Rabs_right; lra.
Defined.
